(** * tukui-mirror-script: the mirror pipeline of [main.go]

    A shallow embedding of [main.go] (package [main]) and the
    properties of its version naming, metadata rendering, artifact
    caching, release publishing and orchestration.

    Go strings are byte strings: they are modelled by [string], whose
    characters ([ascii]) are the bytes.  Go's [int] is the 64-bit
    two's-complement integer of the linux-amd64 build; it is modelled
    by [Z] with the wrap-around written out ([wrap_int]).  A Go panic
    is modelled by the [Panicked] outcome; it is never recovered in
    [main.go], so it propagates through every caller. *)

From Stdlib Require Import ZArith String Ascii List Bool Lia.
From Stdlib Require Import DecimalString DecimalFacts DecimalPos DecimalZ.
From stdpp Require Import base option strings gmap.

Import ListNotations.
Local Open Scope string_scope.
Local Open Scope Z_scope.

(** ** Errors and panics *)

(** The [Err] field of a [*strconv.NumError]. *)
Inductive num_err := ErrSyntax | ErrRange.

(** Go [error] values, as far as [main.go] tells them apart:
    [strconv.Atoi]'s [*strconv.NumError], the [*exec.ExitError] that
    [run_cmd] looks for, and every other error, of which only the
    message and [errors.Is(err, os.ErrNotExist)] matter. *)
Inductive error :=
| NumError (Func Num : string) (Err : num_err)
| ExitError (ExitCode : Z)
| OtherError (msg : string) (not_exist : bool).

(** [errors.Is(err, os.ErrNotExist)]. *)
Definition is_ErrNotExist (e : error) : bool :=
  match e with
  | OtherError _ b => b
  | _ => false
  end.

(** What a panic carries.
    - [PanicString msg] is [panic(msg)], raised by [ensure] and by
      [guess_media_type].
    - [PanicFailedWhile doing err] is the panic of [panicOnErr]; its
      message is [fmt.Sprintf("failed while %s: %s", doing,
      err.Error())], kept here as its two arguments.
    - [PanicSliceBounds hi len] is the Go runtime error
      "slice bounds out of range [:hi] with length len". *)
Inductive panic_value :=
| PanicString (msg : string)
| PanicFailedWhile (doing : string) (err : error)
| PanicSliceBounds (hi len : nat).

(** The outcome of a call that may panic. *)
Inductive result (A : Type) :=
| Ok (a : A)
| Panicked (v : panic_value).
Arguments Ok {A} a.
Arguments Panicked {A} v.

#[export] Instance result_ret : MRet result := fun A a => Ok a.

#[export] Instance result_bind : MBind result := fun A B k r =>
  match r with
  | Ok a => k a
  | Panicked v => Panicked v
  end.

(** [panicOnErr(err, doing)] where [err] comes with the value of a
    Go call returning [(value, error)]. *)
Definition panicOnErr {A} (r : error + A) (doing : string) : result A :=
  match r with
  | inl err => Panicked (PanicFailedWhile doing err)
  | inr a => Ok a
  end.

Definition ensure (b : bool) (msg : string) : result unit :=
  if b then Ok tt else Panicked (PanicString msg).

(** ** Version naming *)

(** The slice expression [s[:hi]] with its bounds check. *)
Definition slice_to (s : string) (hi : nat) : result string :=
  if (hi <=? String.length s)%nat then Ok (substring 0 hi s)
  else Panicked (PanicSliceBounds hi (String.length s)).

(** The map literal of [patch_to_flavour]. *)
Definition flavour_table : gmap string string :=
  {[ "1." := "classic"; "2." := "classic-tbc"; "3." := "classic-wotlk" ]}.

(** 10.1.0 => mainline, 1.14.3 => classic, etc *)
Definition patch_to_flavour (patch : string) : result string :=
  prefix ← slice_to patch 2; (* "1.14.3" => "1." *)
  match flavour_table !! prefix with
  | None => Ok "mainline"
  | Some entry => Ok entry
  end.

(** [strings.Cut(s, sep)]: [s] around the first instance of [sep]. *)
Fixpoint strings_Cut (s sep : string) : option (string * string) :=
  if String.prefix sep s then Some ("", substring (String.length sep) (String.length s) s)
  else match s with
       | EmptyString => None
       | String c s' =>
           match strings_Cut s' sep with
           | Some (before, after) => Some (String c before, after)
           | None => None
           end
       end.

(** [strings.SplitN(s, sep, n)] for a non-empty [sep] and [n >= 0]:
    at most [n] substrings, the last one being the unsplit rest. *)
Fixpoint strings_SplitN (s sep : string) (n : nat) : list string :=
  match n with
  | O => []
  | S O => [s]
  | S n' =>
      match strings_Cut s sep with
      | None => [s]
      | Some (before, after) => before :: strings_SplitN after sep n'
      end
  end.

(** [strings.Contains(s, substr)]. *)
Fixpoint strings_Contains (s substr : string) : bool :=
  String.prefix substr s ||
  match s with
  | EmptyString => false
  | String _ s' => strings_Contains s' substr
  end.

(** The value of a decimal digit byte. *)
Definition digit_of (c : ascii) : option Z :=
  let n := nat_of_ascii c in
  if ((48 <=? n) && (n <=? 57))%nat then Some (Z.of_nat n - 48) else None.

(** The digit loop of [strconv.ParseUint(s, 10, 64)]: a byte that is
    not a digit is a syntax error, a value above [2^64 - 1] a range
    error, whichever comes first from the left. *)
Fixpoint parse_digits (s : string) (n : Z) : num_err + Z :=
  match s with
  | EmptyString => inr n
  | String c s' =>
      match digit_of c with
      | None => inl ErrSyntax
      | Some d =>
          if 2 ^ 64 <=? n * 10 + d then inl ErrRange
          else parse_digits s' (n * 10 + d)
      end
  end.

(** [strconv.Atoi(s)] for the 64-bit [int]: an optional sign, then
    at least one decimal digit, the value within [-2^63, 2^63 - 1]. *)
Definition strconv_Atoi (s : string) : error + Z :=
  let fail e := inl (NumError "Atoi" s e) in
  let unsigned neg digits :=
    match digits with
    | EmptyString => fail ErrSyntax
    | _ =>
        match parse_digits digits 0 with
        | inl e => fail e
        | inr un =>
            if negb neg && (2 ^ 63 <=? un) then fail ErrRange
            else if neg && (2 ^ 63 <? un) then fail ErrRange
            else inr (if neg then - un else un)
        end
    end in
  match s with
  | String "+" s' => unsigned false s'
  | String "-" s' => unsigned true s'
  | _ => unsigned false s
  end.

(** The value of a Go [int] expression: 64-bit two's complement. *)
Definition wrap_int (z : Z) : Z := (z + 2 ^ 63) mod 2 ^ 64 - 2 ^ 63.

(** 10.1.0 => 100100, 1.14.3 => 11400, etc *)
Definition patch_to_interface (patch : string) : result Z :=
  let bits := strings_SplitN patch "." 3 in
  _ ← ensure (1 <? length bits)%nat ("failed to parse game version: " ++ patch);
  major ← panicOnErr (strconv_Atoi (nth 0 bits "")) "parsing major portion of game version";
  minor ← panicOnErr (strconv_Atoi (nth 1 bits "")) "parsing minor portion of game version";
  Ok (wrap_int (wrap_int (10000 * major) + wrap_int (100 * minor))).

(** ** Formatting and paths *)

(** [strconv.Itoa]: what the verb [%d] prints for an [int]. *)
Definition strconv_Itoa (z : Z) : string :=
  NilZero.string_of_int (Z.to_int z).

(** The arguments [main.go] passes to [fmt.Sprintf]. *)
Inductive fmt_arg :=
| ArgS (s : string)
| ArgD (d : Z).

(** [fmt.Sprintf(format, args...)] for the verbs [%s] and [%d], each
    applied to an argument of its own type, which is how [main.go]
    uses it. *)
Fixpoint fmt_Sprintf (format : string) (args : list fmt_arg) : string :=
  match format with
  | EmptyString => EmptyString
  | String "%" (String "s" format') =>
      match args with
      | ArgS s :: args' => s ++ fmt_Sprintf format' args'
      | _ => "%s" ++ fmt_Sprintf format' args
      end
  | String "%" (String "d" format') =>
      match args with
      | ArgD d :: args' => strconv_Itoa d ++ fmt_Sprintf format' args'
      | _ => "%d" ++ fmt_Sprintf format' args
      end
  | String c format' => String c (fmt_Sprintf format' args)
  end.

(** [strings.Join(elems, sep)]. *)
Fixpoint strings_Join (elems : list string) (sep : string) : string :=
  match elems with
  | [] => ""
  | [e] => e
  | e :: elems' => e ++ sep ++ strings_Join elems' sep
  end.

Definition is_separator (c : ascii) : bool := Ascii.eqb c "/".

(** The loop of [filepath.Ext], which walks [path] from its end:
    [rpath] is the part not yet visited, reversed, and [seen] the
    part already walked over. *)
Fixpoint ext_scan (rpath : list ascii) (seen : string) : string :=
  match rpath with
  | [] => ""
  | c :: rpath' =>
      if is_separator c then ""
      else if Ascii.eqb c "." then String c seen
      else ext_scan rpath' (String c seen)
  end.

(** [filepath.Ext(path)]: the suffix beginning at the final dot in the
    final element of [path]; empty if there is no dot. *)
Definition filepath_Ext (path : string) : string :=
  ext_scan (rev (list_ascii_of_string path)) "".

(** Strips the trailing slashes of a reversed path. *)
Fixpoint strip_separators (rpath : list ascii) : list ascii :=
  match rpath with
  | [] => []
  | c :: rpath' => if is_separator c then strip_separators rpath' else rpath
  end.

(** The last path element of a reversed path without trailing slash. *)
Fixpoint last_element (rpath : list ascii) (seen : string) : string :=
  match rpath with
  | [] => seen
  | c :: rpath' => if is_separator c then seen else last_element rpath' (String c seen)
  end.

(** [filepath.Base(path)]: the last element of [path], trailing
    slashes removed; "." for the empty path, "/" for slashes only. *)
Definition filepath_Base (path : string) : string :=
  match path with
  | EmptyString => "."
  | _ =>
      match last_element (strip_separators (rev (list_ascii_of_string path))) "" with
      | EmptyString => "/"
      | base => base
      end
  end.

(** ** Metadata rendering *)

Record Addon := {
  Slug : string;      (* "elvui" *)
  Name : string;      (* "ElvUI" *)
  Url : string;
  Version : string;
  PatchList : list string
}.

(** The double quote. *)
Definition dquote : ascii := "034"%char.

(** A Go raw string literal, written here with an apostrophe wherever
    the literal has a double quote (the literals of [main.go] contain
    no apostrophe). *)
Fixpoint raw (s : string) : string :=
  match s with
  | EmptyString => EmptyString
  | String c s' => String (if Ascii.eqb c "'" then dquote else c) (raw s')
  end.

Definition release_json : string := raw "{
    'releases': [
        {
            'name': '%s',
            'version': '%s',
            'filename': '%s',
            'nolib': false,
            'metadata': [%s
            ]
        }
    ]
}
".

Definition release_flavour_json : string := raw "
                {
                    'flavor': '%s',
                    'interface': %d
                }".

(** The loop of [gen_release_json] over [addon.PatchList], appending
    to [metadata]. *)
Fixpoint gen_metadata (patch_list : list string) (metadata : list string)
  : result (list string) :=
  match patch_list with
  | [] => Ok metadata
  | patch :: patch_list' =>
      flavour ← patch_to_flavour patch;   (* 10.1.0 => mainline, 1.13.3 => classic *)
      iface ← patch_to_interface patch;   (* 10.1.0 => 100100, 1.13.3 => 11300 *)
      gen_metadata patch_list'
        (metadata ++ [fmt_Sprintf release_flavour_json [ArgS flavour; ArgD iface]])
  end.

Definition gen_release_json (addon : Addon) (addon_output_path : string)
    (zip_output_filename : string) : result string :=
  metadata ← gen_metadata (PatchList addon) [];
  let metadata_json := strings_Join metadata ", " in
  Ok (fmt_Sprintf release_json
        [ArgS (Name addon); ArgS (Version addon); ArgS zip_output_filename;
         ArgS metadata_json]).

(** The text of the document around the interpolated fields. *)
Definition before_name : string := raw "{
    'releases': [
        {
            'name': '".

Definition before_version : string := raw "',
            'version': '".

Definition before_filename : string := raw "',
            'filename': '".

Definition before_metadata : string := raw "',
            'nolib': false,
            'metadata': [".

Definition after_metadata : string := raw "
            ]
        }
    ]
}
".

(** The text of the whole document, around its fields and entries. *)
Definition document_text (name version filename metadata_json : string) : string :=
  before_name ++ name ++ before_version ++ version ++ before_filename ++ filename
  ++ before_metadata ++ metadata_json ++ after_metadata.

(** The text that closes the metadata array, and the text after it. *)
Definition closing : string := "
            ]".

Definition document_tail : string := "
        }
    ]
}
".

(** [s] between double quotes, followed by [rest]. *)
Definition quoted (s rest : string) : string :=
  String dquote (s ++ String dquote rest).

(** A line break followed by [n] spaces. *)
Fixpoint spaces (n : nat) : string :=
  match n with
  | O => ""
  | S n' => String " " (spaces n')
  end.

Definition indent (n : nat) : string := String "010" (spaces n).

(** The text of one element of the metadata array. *)
Definition metadata_text (entry : string * Z) : string :=
  raw "
                {
                    'flavor': '" ++ entry.1 ++ raw "',
                    'interface': " ++ strconv_Itoa entry.2 ++ "
                }".

(** ** The outside world *)

(** What [cmd.Run()] leaves behind: its error and the captured
    standard output and standard error. *)
Record RunResult := {
  run_err : option error;
  run_stdout : string;
  run_stderr : string
}.

(** An [*http.Response]: the status code and a handle on the body. *)
Record Response := {
  StatusCode : Z;
  Body : nat
}.

(** The calls of [main.go] that reach outside the process, each with
    the type of what it returns. *)
Inductive Event : Type -> Type :=
| Stderr (msg : string) : Event unit
    (* fmt.Fprintln(os.Stderr, msg) *)
| Stat (path : string) : Event (option error)
    (* the error of os.Stat(path) *)
| Run (command dir : string) : Event RunResult
    (* exec.Command("bash", "-c", command) with Dir = dir, then cmd.Run() *)
| HttpGet (url : string) : Event (error + Response)
| ReadAll (body : nat) : Event (error + string)
| Close (body : nat) : Event unit
| WriteFile (path data : string) (perm : Z) : Event (option error)
| Abs (path : string) : Event (error + string)
    (* filepath.Abs, which depends on the working directory *)
| Getwd : Event (error + string)
| LookupEnv (key : string) : Event (string * bool)
| CreateRelease (token owner repo tag_name make_latest : string) : Event (error + Z)
    (* client.Repositories.CreateRelease; the release's ID *)
| Open (path : string) : Event (error + nat)
| UploadReleaseAsset (token owner repo : string) (id : Z)
    (name label media_type : string) (file : nat) : Event (option error).

(** A computation of [main.go]: it returns, panics, or makes a call
    and goes on with what the call returned. *)
Inductive Prog (A : Type) : Type :=
| Ret (a : A)
| Panic (v : panic_value)
| Vis {X : Type} (e : Event X) (k : X -> Prog A).
Arguments Ret {A} a.
Arguments Panic {A} v.
Arguments Vis {A X} e k.

Fixpoint prog_bind {A B} (k : A -> Prog B) (p : Prog A) : Prog B :=
  match p with
  | Ret a => k a
  | Panic v => Panic v
  | Vis e h => Vis e (fun x => prog_bind k (h x))
  end.

#[export] Instance Prog_ret : MRet Prog := fun A a => Ret a.
#[export] Instance Prog_bind : MBind Prog := fun A B k p => prog_bind k p.

Definition trigger {X} (e : Event X) : Prog X := Vis e Ret.

(** A pure call that may panic, inside a computation. *)
Definition lift {A} (r : result A) : Prog A :=
  match r with
  | Ok a => Ret a
  | Panicked v => Panic v
  end.

(** [defer d] ahead of the rest [p] of a function body: [d] runs when
    [p] returns and also when it panics. *)
Fixpoint defer {A} (d : Prog unit) (p : Prog A) : Prog A :=
  match p with
  | Ret a => _ ← d; Ret a
  | Panic v => _ ← d; Panic v
  | Vis e k => Vis e (fun x => defer d (k x))
  end.

(** [for _, x := range l { body x }]. *)
Fixpoint for_range {A} (l : list A) (body : A -> Prog unit) : Prog unit :=
  match l with
  | [] => Ret tt
  | x :: l' => _ ← body x; for_range l' body
  end.

(** [panicOnErr(err, doing)] for a call that returns an error only. *)
Definition panicOnErr_ (err : option error) (doing : string) : result unit :=
  match err with
  | Some e => Panicked (PanicFailedWhile doing e)
  | None => Ok tt
  end.

(** A call together with what it returned. *)
Inductive obs :=
| Obs {X : Type} (e : Event X) (x : X).

Section Run.
(** The world: any state, answering each call and moving on. *)
Context {W : Type} (handle : forall X, Event X -> W -> X * W).

(** Runs [p] from the world [w]: the outcome, the calls made in
    order, and the world afterwards. *)
Fixpoint run {A} (p : Prog A) (w : W) : result A * list obs * W :=
  match p with
  | Ret a => (Ok a, [], w)
  | Panic v => (Panicked v, [], w)
  | Vis e k =>
      let '(x, w1) := handle _ e w in
      let '(r, t, w2) := run (k x) w1 in
      (r, Obs e x :: t, w2)
  end.
End Run.

(** Library functions that [main.go] calls and whose definition this
    development does not depend on. *)
Class GoLib := {
  strings_ToLower : string -> string;
  strings_TrimSpace : string -> string;
  filepath_Join : list string -> string;
  (* json.Unmarshal(data, &addon_list) for addon_list : []Addon *)
  json_Unmarshal : string -> error + list Addon;
  (* how an [*exec.Cmd] for bash prints its path: cmd.Path, or "bash"
     when bash was not found *)
  bash_path : string
}.

(** ** The program *)

Record IMirror := {
  fetch_addon_list : Prog (list Addon);
  download_addon : Addon -> string -> Prog string
}.

Section Program.
Context {lib : GoLib}.

Definition stderr (msg : string) : Prog unit := trigger (Stderr msg).

(** [os.FileMode(int(0644))]. *)
Definition perm_0644 : Z := 6 * 64 + 4 * 8 + 4.

(** returns [true] if file at [path] exists. *)
Definition file_exists (path : string) : Prog bool :=
  err ← trigger (Stat path);
  match err with
  | Some e => if is_ErrNotExist e then Ret false else Ret true
  | None => Ret true
  end.

(** [cmd.String()] for [exec.Command("bash", "-c", command)]. *)
Definition cmd_String (command : string) : string :=
  bash_path ++ " -c " ++ command.

(** run a shell command, returning the return code, stdout and stderr. *)
Definition run_cmd (command path : string) : Prog (Z * string * string) :=
  let rc := 0 in
  _ ← stderr (fmt_Sprintf "executing %s in %s" [ArgS (cmd_String command); ArgS path]);
  r ← trigger (Run command path);
  let rc :=
    match run_err r with
    | Some (ExitError code) => code
    | Some _ => rc
    | None => rc
    end in
  Ret (rc, strings_TrimSpace (run_stdout r), strings_TrimSpace (run_stderr r)).

Definition run_all_cmd (command_list : list string) (cwd : string) : Prog unit :=
  for_range command_list (fun cmd =>
    '(rc, _, _stderr) ← run_cmd cmd cwd;
    lift (ensure (rc =? 0)
            (fmt_Sprintf "command '%s' failed: %s" [ArgS cmd; ArgS _stderr]))).

Definition TukuiMirror_fetch_addon_list : Prog (list Addon) :=
  let url := "https://api.tukui.org/v1/addons" in
  r ← trigger (HttpGet url);
  resp ← lift (panicOnErr r "fetching addon list");
  defer (trigger (Close (Body resp))) (
    _ ← lift (ensure (StatusCode resp =? 200) "non-200 response fetching addon list");
    r ← trigger (ReadAll (Body resp));
    body_bytes ← lift (panicOnErr r "reading response body into a byte array");
    lift (panicOnErr (json_Unmarshal body_bytes)
            "deserialising response bytes into a list of addon structs")).

(** downloads zip file at [url] to file, returning the output path
    and panicking on any errors. *)
Definition TukuiMirror_download_addon (addon : Addon) (output_path : string)
  : Prog string :=
  (* "elvui--13.33.zip", "tukui--20.37.zip" *)
  let addon_filename :=
    fmt_Sprintf "%s--%s.zip" [ArgS (Slug addon); ArgS (Version addon)] in
  (* "/path/to/output/dir/elvui--13.33.zip" *)
  let zip_output_path := filepath_Join [output_path; addon_filename] in
  exists_ ← file_exists zip_output_path;
  if exists_ : bool then Ret zip_output_path
  else
    _ ← stderr ("downloading: " ++ Url addon);
    r ← trigger (HttpGet (Url addon));
    resp ← lift (panicOnErr r "downloading addon to file");
    defer (trigger (Close (Body resp))) (
      _ ← lift (ensure (StatusCode resp =? 200) "non-200 response downloading zip file");
      r ← trigger (ReadAll (Body resp));
      zip_bytes ← lift (panicOnErr r "reading bytes from response body");
      err ← trigger (WriteFile zip_output_path zip_bytes perm_0644);
      _ ← lift (panicOnErr_ err "writing bytes to zip file");
      _ ← stderr ("wrote: " ++ zip_output_path);
      Ret zip_output_path).

Definition TukuiMirror : IMirror := {|
  fetch_addon_list := TukuiMirror_fetch_addon_list;
  download_addon := TukuiMirror_download_addon
|}.

Definition write_release_json (release_json addon_output_dir : string) : Prog string :=
  let release_json_output_path := filepath_Join [addon_output_dir; "release.json"] in
  err ← trigger (WriteFile release_json_output_path release_json perm_0644);
  _ ← lift (panicOnErr_ err "writing release.json to file");
  _ ← stderr ("wrote: " ++ release_json_output_path);
  Ret release_json_output_path.

Definition fetch_addon_version (addon_output_dir : string) : Prog string :=
  '(rc, _stdout, _stderr) ← run_cmd "git describe --tags --abbrev=0" addon_output_dir;
  if negb (rc =? 0) then
    if strings_Contains _stderr "fatal: No names found, cannot describe anything." ||
       strings_Contains _stderr "fatal: No tags can describe"
    then Ret "" (* no tags, no worries *)
    else
      _ ← lift (ensure (rc =? 0) ("failed to fetch latest tag: " ++ _stderr));
      Ret _stdout
  else Ret _stdout.

Definition tag_addon (version addon_output_dir : string) : Prog unit :=
  let cmd_list := [
    fmt_Sprintf "git commit -m %s --allow-empty" [ArgS version];
    "git tag " ++ version;
    "git push";
    "git push --tags"
  ] in
  run_all_cmd cmd_list addon_output_dir.

Definition fetch_repo (addon : Addon) (script_path : string) : Prog unit :=
  let cmd_list := [
    fmt_Sprintf "rm -rf %s" [ArgS (Slug addon)];
    "git clone ssh://git@github.com/ogri-la/" ++ Slug addon
  ] in
  run_all_cmd cmd_list script_path.

Definition guess_media_type (path : string) : result string :=
  let ext := strings_ToLower (filepath_Ext path) in
  if String.eqb ext ".zip" then Ok "application/zip"
  else if String.eqb ext ".json" then Ok "application/json"
  else Panicked (PanicString ("failed to guess mime for given path: " ++ path)).

(** The body of the loop of [create_tag_release] over [asset_list];
    [id] is [release_result.GetID()]. *)
Definition upload_asset (addon : Addon) (token : string) (id : Z)
    (asset_path : string) : Prog unit :=
  media_type ← lift (guess_media_type asset_path);
  r ← trigger (Open asset_path);
  fh ← lift (panicOnErr r "opening asset");
  err ← trigger (UploadReleaseAsset token "ogri-la" (Slug addon) id
                   (filepath_Base asset_path) (filepath_Base asset_path) media_type fh);
  lift (panicOnErr_ err "uploading asset").

Definition create_tag_release (addon : Addon) (token : string)
    (asset_list : list string) : Prog unit :=
  (* https://docs.github.com/en/rest/releases/releases?apiVersion=2022-11-28#create-a-release *)
  r ← trigger (CreateRelease token "ogri-la" (Slug addon) (Version addon) "true");
  release_result ← lift (panicOnErr r "creating a Github release");
  for_range asset_list (upload_asset addon token release_result).

(** pulls a Github personal access token (PAT) out of an envvar
    [GITHUB_TOKEN]; panics if token does not exist. *)
Definition github_token : Prog string :=
  '(token, present) ← trigger (LookupEnv "GITHUB_TOKEN");
  _ ← lift (ensure present "envvar GITHUB_TOKEN not set.");
  Ret token.

(** What the loop body of [mirror] does once the artifact of an update
    is at [zip_output_path]. *)
Definition publish_update (addon : Addon) (addon_output_dir token : string)
    (zip_output_path : string) : Prog unit :=
  let zip_output_filename := filepath_Base zip_output_path in (* "elvui--3.33.zip" *)
  release_json ← lift (gen_release_json addon addon_output_dir zip_output_filename);
  release_json_path ← write_release_json release_json addon_output_dir;
  _ ← tag_addon (Version addon) addon_output_dir;
  create_tag_release addon token [zip_output_path; release_json_path].

(** What the loop body of [mirror] does once an update has been
    detected for [addon], after its log line. *)
Definition mirror_update (app : IMirror) (addon : Addon)
    (addon_output_dir token : string) : Prog unit :=
  zip_output_path ← download_addon app addon addon_output_dir;
  publish_update addon addon_output_dir token zip_output_path.

(** The head of the loop body of [mirror]: the mirror repository is
    recloned and its most recent tag read. *)
Definition mirror_query (addon : Addon) (script_path : string) : Prog (string * string) :=
  _ ← fetch_repo addon script_path;
  (* "/path/to/output/dir/elvui/" *)
  r ← trigger (Abs (Slug addon));
  addon_output_dir ← lift (panicOnErr r "creating an absolute path for addon's output");
  current_version ← fetch_addon_version addon_output_dir;
  Ret (addon_output_dir, current_version).

(** The loop body of [mirror]. *)
Definition mirror_addon (app : IMirror) (script_path token : string) (addon : Addon)
  : Prog unit :=
  '(addon_output_dir, current_version) ← mirror_query addon script_path;
  let latest_version := Version addon in
  if String.eqb current_version latest_version then
    stderr (fmt_Sprintf "%s == %s, skipping" [ArgS current_version; ArgS latest_version])
    (* continue *)
  else
    _ ← stderr (fmt_Sprintf "update detected for %s: '%s' => '%s'"
                  [ArgS (Name addon); ArgS current_version; ArgS latest_version]);
    mirror_update app addon addon_output_dir token.

Definition mirror (app : IMirror) (script_path token : string) : Prog unit :=
  addon_list ← fetch_addon_list app;
  for_range addon_list (mirror_addon app script_path token).

Definition main : Prog unit :=
  r ← trigger Getwd;
  script_path ← lift (panicOnErr r "fetching the current working directory");
  token ← github_token;
  mirror TukuiMirror script_path token.
End Program.

(** ** What a run does to the world

    The calls of a trace that act on the world outside the process,
    leaving out the log lines, the path and environment lookups and
    the opening and reading of files and response bodies. *)

Inductive effect :=
| EShell (command dir : string)     (* a shell command was run *)
| EFetch (url : string)             (* a network request for [url] *)
| EWrite (path : string)            (* a file was written *)
| ERelease (repo tag_name : string) (* a hosted release was created *)
| EUpload (name : string)           (* an asset was uploaded to it *).

Definition effect_of (o : obs) : option effect :=
  match o with
  | Obs e _ =>
      match e with
      | Run command dir => Some (EShell command dir)
      | HttpGet url => Some (EFetch url)
      | WriteFile path _ _ => Some (EWrite path)
      | CreateRelease _ _ repo tag_name _ => Some (ERelease repo tag_name)
      | UploadReleaseAsset _ _ _ _ name _ _ _ => Some (EUpload name)
      | _ => None
      end
  end.

Definition effects (t : list obs) : list effect := omap effect_of t.

(** A shell command that ended with a non-zero exit status. *)
Definition exit_failure (o : obs) : bool :=
  match o with
  | Obs e x =>
      match e in Event X return X -> bool with
      | Run _ _ => fun r =>
          match run_err r with
          | Some (ExitError code) => negb (code =? 0)
          | _ => false
          end
      | _ => fun _ => false
      end x
  end.

(** The responses that arrived in a trace, the response bodies that
    were read to their end and what they held, the bodies that were
    closed, and the files that were written, with their contents and
    modes. *)
Definition response_of (o : obs) : option Response :=
  match o with
  | Obs e x =>
      match e in Event X return X -> option Response with
      | HttpGet _ => fun r => match r with inr resp => Some resp | inl _ => None end
      | _ => fun _ => None
      end x
  end.

Definition read_of (o : obs) : option (nat * string) :=
  match o with
  | Obs e x =>
      match e in Event X return X -> option (nat * string) with
      | ReadAll body => fun r => match r with inr data => Some (body, data) | inl _ => None end
      | _ => fun _ => None
      end x
  end.

Definition closed_of (o : obs) : option nat :=
  match o with
  | Obs e _ =>
      match e with
      | Close body => Some body
      | _ => None
      end
  end.

Definition written_of (o : obs) : option (string * string * Z) :=
  match o with
  | Obs e _ =>
      match e with
      | WriteFile path data perm => Some (path, data, perm)
      | _ => None
      end
  end.

(** A trace in which the bodies closed are the bodies of the responses
    that arrived, one for one and in the same order. *)
Definition closes_bodies (t : list obs) : Prop :=
  omap closed_of t = map Body (omap response_of t).

(** A computation all of whose runs leave such a trace. *)
Definition closes_all {W : Type} (handle : forall X, Event X -> W -> X * W)
    {A} (p : Prog A) : Prop :=
  forall w, let '(_, t, _) := run handle p w in closes_bodies t.

(** The calls that obtain a response or close a response body. *)
Definition http_event {X} (e : Event X) : bool :=
  match e with
  | HttpGet _ | Close _ => true
  | _ => false
  end.

(** A computation that makes no such call, however its calls are
    answered. *)
Inductive no_http {A} : Prog A -> Prop :=
| no_http_Ret (a : A) : no_http (Ret a)
| no_http_Panic (v : panic_value) : no_http (Panic v)
| no_http_Vis {X} (e : Event X) (k : X -> Prog A) :
    http_event e = false -> (forall x, no_http (k x)) -> no_http (Vis e k).

Section Order.
Context {lib : GoLib}.

(** The line [run_cmd] logs before it runs [command]. *)
Definition executing (command path : string) : string :=
  fmt_Sprintf "executing %s in %s" [ArgS (cmd_String command); ArgS path].

(** What the head of the loop body does to the world. *)
Definition query_order (addon : Addon) (script_path addon_output_dir : string)
  : list effect :=
  [ EShell (fmt_Sprintf "rm -rf %s" [ArgS (Slug addon)]) script_path;
    EShell ("git clone ssh://git@github.com/ogri-la/" ++ Slug addon) script_path;
    EShell "git describe --tags --abbrev=0" addon_output_dir ].

(** What publishing an update does to the world once the artifact is
    at [zip_output_path]: the metadata document, the commit, the tag,
    the two pushes, the hosted release and its two assets. *)
Definition publish_order (addon : Addon) (addon_output_dir zip_output_path : string)
  : list effect :=
  let release_json_path := filepath_Join [addon_output_dir; "release.json"] in
  [ EWrite release_json_path;
    EShell (fmt_Sprintf "git commit -m %s --allow-empty" [ArgS (Version addon)])
      addon_output_dir;
    EShell ("git tag " ++ Version addon) addon_output_dir;
    EShell "git push" addon_output_dir;
    EShell "git push --tags" addon_output_dir;
    ERelease (Slug addon) (Version addon);
    EUpload (filepath_Base zip_output_path);
    EUpload (filepath_Base release_json_path) ].
End Order.

(** ** The metadata document as JSON

    The schema of the metadata document is given as JSON.  What
    follows is not part of [main.go]: it is a reader of JSON text
    (RFC 8259, numbers restricted to integers), against which the
    text that [gen_release_json] renders is compared. *)

Module Json.

#[warnings="-register-all"]
Inductive json :=
| JNull
| JBool (b : bool)
| JNumber (z : Z)
| JString (s : string)
| JArray (elements : list json)
| JObject (members : list (string * json)).

Definition backslash : ascii := "092"%char.

(** space, horizontal tab, line feed, carriage return *)
Definition is_ws (c : ascii) : bool :=
  Ascii.eqb c " " || Ascii.eqb c "009" || Ascii.eqb c "010" || Ascii.eqb c "013".

Fixpoint skip_ws (s : string) : string :=
  match s with
  | String c s' => if is_ws c then skip_ws s' else s
  | EmptyString => s
  end.

(** A control character: a byte below 32, whose three high bits are 0. *)
Definition is_control (c : ascii) : bool :=
  match c with
  | Ascii _ _ _ _ _ b5 b6 b7 => negb (b5 || b6 || b7)
  end.

(** A byte that may stand for itself inside a JSON string: not a
    double quote, not a backslash, not a control character. *)
Definition plain_char (c : ascii) : bool :=
  negb (Ascii.eqb c dquote) && negb (Ascii.eqb c backslash) && negb (is_control c).

Fixpoint plain (s : string) : bool :=
  match s with
  | EmptyString => true
  | String c s' => plain_char c && plain s'
  end.

(** The byte a two-character escape stands for. *)
Definition simple_escape (c : ascii) : option ascii :=
  if Ascii.eqb c dquote then Some dquote
  else if Ascii.eqb c backslash then Some backslash
  else if Ascii.eqb c "/" then Some "/"%char
  else if Ascii.eqb c "b" then Some "008"%char
  else if Ascii.eqb c "f" then Some "012"%char
  else if Ascii.eqb c "n" then Some "010"%char
  else if Ascii.eqb c "r" then Some "013"%char
  else if Ascii.eqb c "t" then Some "009"%char
  else None.

Definition hex_digit (c : ascii) : option N :=
  let n := N_of_ascii c in
  (if (48 <=? n) && (n <=? 57) then Some (n - 48)
   else if (65 <=? n) && (n <=? 70) then Some (n - 55)
   else if (97 <=? n) && (n <=? 102) then Some (n - 87)
   else None)%N.

(** The UTF-8 bytes of the UTF-16 code unit [cp] written as
    [\uXXXX]; half of a surrogate pair is read as U+FFFD. *)
Definition utf8 (cp : N) : string :=
  let byte n := String (ascii_of_N n) EmptyString in
  (if cp <? 128 then byte cp
   else if cp <? 2048 then
     byte (192 + cp / 64) ++ byte (128 + cp mod 64)
   else if (55296 <=? cp) && (cp <? 57344) then
     byte 239 ++ byte 191 ++ byte 189
   else
     byte (224 + cp / 4096) ++ byte (128 + (cp / 64) mod 64)
     ++ byte (128 + cp mod 64))%N.

(** Where the reader stands inside a string. *)
Inductive string_state :=
| InString                       (* between characters *)
| InEscape                       (* after a backslash *)
| InHex (todo : nat) (acc : N)   (* in [\u], [todo] digits to come *).

Definition prepend (p : string) (r : option (string * string)) :=
  match r with
  | Some (d, rest) => Some (p ++ d, rest)
  | None => None
  end.

(** Reads a string whose opening quote has been consumed: the bytes
    it denotes and the text after its closing quote. *)
Fixpoint read_string (st : string_state) (s : string) : option (string * string) :=
  match s with
  | EmptyString => None
  | String c s' =>
      match st with
      | InString =>
          if Ascii.eqb c dquote then Some (EmptyString, s')
          else if Ascii.eqb c backslash then read_string InEscape s'
          else if plain_char c then prepend (String c EmptyString) (read_string InString s')
          else None
      | InEscape =>
          match simple_escape c with
          | Some b => prepend (String b EmptyString) (read_string InString s')
          | None => if Ascii.eqb c "u" then read_string (InHex 4 0) s' else None
          end
      | InHex todo acc =>
          match hex_digit c, todo with
          | Some h, 1%nat => prepend (utf8 (16 * acc + h)) (read_string InString s')
          | Some h, S todo' => read_string (InHex todo' (16 * acc + h)) s'
          | _, _ => None
          end
      end
  end.

Definition is_digit (c : ascii) : bool :=
  let n := nat_of_ascii c in ((48 <=? n) && (n <=? 57))%nat.

(** The longest run of digits at the head of [s], and the rest. *)
Fixpoint span_digits (s : string) : string * string :=
  match s with
  | String c s' =>
      if is_digit c then let '(ds, rest) := span_digits s' in (String c ds, rest)
      else (EmptyString, s)
  | EmptyString => (EmptyString, s)
  end.

(** Reads an integer: an optional minus sign and at least one digit,
    without a leading zero in front of another digit. *)
Definition read_number (s : string) : option (Z * string) :=
  let '(sign, s1) :=
    match s with
    | String c s' => if Ascii.eqb c "-" then ("-", s') else ("", s)
    | EmptyString => ("", s)
    end in
  let '(ds, rest) := span_digits s1 in
  match ds with
  | EmptyString => None
  | String c ds' =>
      if Ascii.eqb c "0" && negb (String.eqb ds' "") then None (* no leading zero *)
      else
        match NilEmpty.int_of_string (sign ++ ds) with
        | Some d => Some (Z.of_int d, rest)
        | None => None
        end
  end.

(** [s] without the literal [lit] it begins with. *)
Fixpoint strip_literal (lit s : string) : option string :=
  match lit, s with
  | EmptyString, _ => Some s
  | String a lit', String b s' => if Ascii.eqb a b then strip_literal lit' s' else None
  | String _ _, EmptyString => None
  end.

Definition read_literal (lit : string) (v : json) (s : string) : option (json * string) :=
  match strip_literal lit s with
  | Some rest => Some (v, rest)
  | None => None
  end.

(** Reads a value at the head of [s], the elements of an array up to
    its closing bracket, or the members of an object up to its
    closing brace.  [fuel] bounds the number of nested calls. *)
Fixpoint read_value (fuel : nat) (s : string) : option (json * string) :=
  match fuel with
  | O => None
  | S fuel' =>
      match s with
      | EmptyString => None
      | String c s' =>
          if Ascii.eqb c dquote then
            match read_string InString s' with
            | Some (str, rest) => Some (JString str, rest)
            | None => None
            end
          else if Ascii.eqb c "[" then
            match strip_literal "]" (skip_ws s') with
            | Some rest => Some (JArray [], rest)
            | None =>
                match read_elements fuel' (skip_ws s') with
                | Some (l, rest) => Some (JArray l, rest)
                | None => None
                end
            end
          else if Ascii.eqb c "{" then
            match strip_literal "}" (skip_ws s') with
            | Some rest => Some (JObject [], rest)
            | None =>
                match read_members fuel' (skip_ws s') with
                | Some (l, rest) => Some (JObject l, rest)
                | None => None
                end
            end
          else if Ascii.eqb c "t" then read_literal "true" (JBool true) s
          else if Ascii.eqb c "f" then read_literal "false" (JBool false) s
          else if Ascii.eqb c "n" then read_literal "null" JNull s
          else
            match read_number s with
            | Some (z, rest) => Some (JNumber z, rest)
            | None => None
            end
      end
  end
with read_elements (fuel : nat) (s : string) : option (list json * string) :=
  match fuel with
  | O => None
  | S fuel' =>
      match read_value fuel' s with
      | Some (v, rest) =>
          match strip_literal "," (skip_ws rest) with
          | Some rest' =>
              match read_elements fuel' (skip_ws rest') with
              | Some (l, rest'') => Some (v :: l, rest'')
              | None => None
              end
          | None =>
              match strip_literal "]" (skip_ws rest) with
              | Some rest' => Some ([v], rest')
              | None => None
              end
          end
      | None => None
      end
  end
with read_members (fuel : nat) (s : string) : option (list (string * json) * string) :=
  match fuel with
  | O => None
  | S fuel' =>
      match strip_literal (String dquote "") s with
      | Some s' =>
          match read_string InString s' with
          | Some (key, rest) =>
              match strip_literal ":" (skip_ws rest) with
              | Some rest' =>
                  match read_value fuel' (skip_ws rest') with
                  | Some (v, rest'') =>
                      match strip_literal "," (skip_ws rest'') with
                      | Some r =>
                          match read_members fuel' (skip_ws r) with
                          | Some (l, r') => Some ((key, v) :: l, r')
                          | None => None
                          end
                      | None =>
                          match strip_literal "}" (skip_ws rest'') with
                          | Some r => Some ([(key, v)], r)
                          | None => None
                          end
                      end
                  | None => None
                  end
              | None => None
              end
          | None => None
          end
      | None => None
      end
  end.

(** Reads a whole JSON text: one value between optional white space. *)
Definition parse (s : string) : option json :=
  match read_value (String.length s) (skip_ws s) with
  | Some (v, rest) =>
      match skip_ws rest with
      | EmptyString => Some v
      | _ => None
      end
  | None => None
  end.

(** The text that follows an interpolated field: the closing quote, a
    comma and a line break. *)
Definition field_end (tail : string) : string :=
  String dquote (String "," (String "010" tail)).

(** An element of the [metadata] array. *)
Definition metadata_element (entry : string * Z) : json :=
  JObject [("flavor", JString entry.1); ("interface", JNumber entry.2)].

(** The metadata document of the schema: one release entry with its
    [name], [version], [filename], [nolib] and [metadata]. *)
Definition release_document (name version filename : string)
    (metadata : list (string * Z)) : json :=
  JObject [("releases", JArray [JObject [
    ("name", JString name);
    ("version", JString version);
    ("filename", JString filename);
    ("nolib", JBool false);
    ("metadata", JArray (map metadata_element metadata))]])].

End Json.

(** ** A world to run the program in

    An instance of the library and a simulated world, for running the
    definitions above on concrete inputs. *)

Module Demo.

Definition lower (c : ascii) : ascii :=
  let n := nat_of_ascii c in
  if ((65 <=? n) && (n <=? 90))%nat then ascii_of_nat (n + 32) else c.

Fixpoint to_lower (s : string) : string :=
  match s with
  | EmptyString => EmptyString
  | String c s' => String (lower c) (to_lower s')
  end.

Fixpoint trim_left (s : string) : string :=
  match s with
  | String c s' => if Json.is_ws c then trim_left s' else s
  | EmptyString => s
  end.

Definition reverse (s : string) : string :=
  string_of_list_ascii (rev (list_ascii_of_string s)).

(** Stands for the library on ASCII text and on paths whose elements
    are neither empty nor [.] nor [..]. *)
#[export] Instance lib : GoLib := {|
  strings_ToLower := to_lower;
  strings_TrimSpace := fun s => reverse (trim_left (reverse (trim_left s)));
  filepath_Join := fun elems => strings_Join elems "/";
  json_Unmarshal := fun _ => inl (OtherError "unexpected end of JSON input" false);
  bash_path := "/usr/bin/bash"
|}.

(** The simulated world: the files that exist, the addons the
    catalog lists, and how commands and requests fare. *)
Record world := {
  files : list string;
  shell : string -> RunResult;
  http : string -> error + Response
}.

Definition succeeds (out : string) : RunResult :=
  {| run_err := None; run_stdout := out; run_stderr := "" |}.

Definition no_such_file : error :=
  OtherError "no such file or directory" true.

Definition handle (X : Type) (e : Event X) (w : world) : X * world :=
  match e in Event X return X * world with
  | Stderr _ => (tt, w)
  | Stat path =>
      (if existsb (String.eqb path) (files w) then None else Some no_such_file, w)
  | Run command dir => (shell w command, w)
  | HttpGet url => (http w url, w)
  | ReadAll body => (inr "PK", w)
  | Close body => (tt, w)
  | WriteFile path data perm =>
      (None, {| files := path :: files w; shell := shell w; http := http w |})
  | Abs path => (inr ("/srv/mirror/" ++ path), w)
  | Getwd => (inr "/srv/mirror", w)
  | LookupEnv key => (("ghp_token", true), w)
  | CreateRelease token owner repo tag_name make_latest => (inr 7, w)
  | Open path => (inr 3%nat, w)
  | UploadReleaseAsset token owner repo id name label media_type file => (None, w)
  end.

Definition elvui : Addon := {|
  Slug := "elvui"; Name := "ElvUI";
  Url := "https://api.tukui.org/v1/download/elvui";
  Version := "13.33"; PatchList := ["10.1.0"]
|}.

(** Every command succeeds; [git describe] prints [tag]. *)
Definition tagged (tag : string) (command : string) : RunResult :=
  if String.eqb command "git describe --tags --abbrev=0" then succeeds tag
  else succeeds "".

Definition ok_response (url : string) : error + Response :=
  inr {| StatusCode := 200; Body := 1 |}.

Definition calm (tag : string) : world :=
  {| files := []; shell := tagged tag; http := ok_response |}.

(** No command can be started: [cmd.Run()] fails before there is any
    exit status. *)
Definition cannot_start (command : string) : RunResult :=
  {| run_err := Some (OtherError "fork/exec /usr/bin/bash: resource temporarily unavailable" false);
     run_stdout := ""; run_stderr := "" |}.

Definition stalled : world :=
  {| files := []; shell := cannot_start; http := ok_response |}.

(** The artifact of [elvui] is in the cache already. *)
Definition cached : world :=
  {| files := ["/srv/mirror/elvui/elvui--13.33.zip"]; shell := tagged "";
     http := ok_response |}.

(** The artifact host answers 404. *)
Definition not_found (url : string) : error + Response :=
  inr {| StatusCode := 404; Body := 1 |}.

Definition refused : world :=
  {| files := []; shell := tagged ""; http := not_found |}.

(** [elvui] under a name with a double quote in it. *)
Definition quoting : Addon := {|
  Slug := "elvui"; Name := "Elv" ++ String dquote "UI";
  Url := "https://api.tukui.org/v1/download/elvui";
  Version := "13.33"; PatchList := ["10.1.0"]
|}.

(** [elvui] under a name of two backslashes. *)
Definition backslashed : Addon := {|
  Slug := "elvui"; Name := String Json.backslash (String Json.backslash "");
  Url := "https://api.tukui.org/v1/download/elvui";
  Version := "13.33"; PatchList := ["10.1.0"]
|}.

(** The simulated world with a regular file where a directory of the
    cache path should be: [os.Stat] of the path fails with "not a
    directory", which is no [os.ErrNotExist]; every other call is
    answered as by [handle]. *)
Definition not_a_directory (path : string) : error :=
  OtherError ("stat " ++ path ++ ": not a directory") false.

Definition obstructed (X : Type) (e : Event X) (w : world) : X * world :=
  match e in Event X return X * world with
  | Stat path => (Some (not_a_directory path), w)
  | e' => handle _ e' w
  end.

(** A mirror whose catalog is given, and which acquires artifacts as
    [TukuiMirror] does. *)
Definition catalog (addons : list Addon) : IMirror := {|
  fetch_addon_list := Ret addons;
  download_addon := TukuiMirror_download_addon
|}.

Definition tukui : Addon := {|
  Slug := "tukui"; Name := "Tukui";
  Url := "https://api.tukui.org/v1/download/tukui";
  Version := "20.37"; PatchList := ["10.1.0"; "1.14.3"]
|}.

(** [elvui] with a patch of one byte. *)
Definition malformed : Addon := {|
  Slug := "elvui"; Name := "ElvUI";
  Url := "https://api.tukui.org/v1/download/elvui";
  Version := "13.33"; PatchList := ["10.1.0"; "1"]
|}.

(** The mirror repository of [tukui] cannot be cloned; every other
    command succeeds, and [git describe] prints 13.33. *)
Definition no_repository (command : string) : RunResult :=
  if String.eqb command "git clone ssh://git@github.com/ogri-la/tukui" then
    {| run_err := Some (ExitError 128); run_stdout := "";
       run_stderr := "fatal: repository not found" |}
  else tagged "13.33" command.

Definition unclonable : world :=
  {| files := []; shell := no_repository; http := ok_response |}.

End Demo.

(** * Properties *)

#[local] Existing Instance Demo.lib.

(** ** Version naming *)

Lemma slice_to_2 (c1 c2 : ascii) (rest : string) :
  slice_to (String c1 (String c2 rest)) 2 = Ok (String c1 (String c2 "")).
Proof. unfold slice_to. simpl. destruct rest; reflexivity. Qed.

Lemma prefix_2 (p1 p2 c1 c2 : ascii) (rest : string) :
  String.prefix (String p1 (String p2 "")) (String c1 (String c2 rest)) = true <->
  String c1 (String c2 "") = String p1 (String p2 "").
Proof.
  simpl. destruct (ascii_dec p1 c1) as [->|n1]; [|split; [discriminate|congruence]].
  destruct (ascii_dec p2 c2) as [->|n2]; [|split; [discriminate|congruence]].
  split; [reflexivity|]. intros _. destruct rest; reflexivity.
Qed.

Lemma flavour_table_other (prefix : string) :
  prefix <> "1." -> prefix <> "2." -> prefix <> "3." ->
  flavour_table !! prefix = None.
Proof.
  intros H1 H2 H3. unfold flavour_table.
  rewrite lookup_insert_ne by congruence.
  rewrite lookup_insert_ne by congruence.
  apply lookup_singleton_ne. congruence.
Qed.

(** C4: on a patch of at least two bytes, [patch_to_flavour] returns
    classic, classic-tbc or classic-wotlk when the patch starts with
    "1.", "2." or "3.", and mainline for every other two-byte prefix;
    so "1.14.3", "2.5.1", "3.0.0" and "10.1.0" yield classic,
    classic-tbc, classic-wotlk and mainline. *)
Theorem patch_to_flavour_table (patch : string) :
  (2 <= String.length patch)%nat ->
  (String.prefix "1." patch = true -> patch_to_flavour patch = Ok "classic") /\
  (String.prefix "2." patch = true -> patch_to_flavour patch = Ok "classic-tbc") /\
  (String.prefix "3." patch = true -> patch_to_flavour patch = Ok "classic-wotlk") /\
  (String.prefix "1." patch = false -> String.prefix "2." patch = false ->
   String.prefix "3." patch = false -> patch_to_flavour patch = Ok "mainline") /\
  patch_to_flavour "1.14.3" = Ok "classic" /\
  patch_to_flavour "2.5.1" = Ok "classic-tbc" /\
  patch_to_flavour "3.0.0" = Ok "classic-wotlk" /\
  patch_to_flavour "10.1.0" = Ok "mainline".
Proof.
  intros Hlen.
  destruct patch as [|c1 [|c2 rest]]; simpl in Hlen; try lia.
  unfold patch_to_flavour. rewrite slice_to_2.
  repeat split; try reflexivity.
  - intros H%prefix_2. rewrite H. reflexivity.
  - intros H%prefix_2. rewrite H. reflexivity.
  - intros H%prefix_2. rewrite H. reflexivity.
  - intros H1 H2 H3. cbn [mbind result_bind].
    rewrite flavour_table_other; [reflexivity| | |];
      intros E; apply (proj2 (prefix_2 _ _ _ _ rest)) in E; congruence.
Qed.

Lemma patch_to_flavour_table_witness :
  (2 <= String.length "10.1.0")%nat /\ patch_to_flavour "10.1.0" = Ok "mainline".
Proof.
  split; [simpl; lia|].
  apply (patch_to_flavour_table "10.1.0"); [simpl; lia|reflexivity..].
Defined.

(** C5: on a patch shorter than two bytes the slice [patch[:2]] is out
    of range: [patch_to_flavour] stops in Go's run-time panic "slice
    bounds out of range", and not in an error of the program's own. *)
Theorem patch_to_flavour_short (patch : string) :
  (String.length patch < 2)%nat ->
  patch_to_flavour patch = Panicked (PanicSliceBounds 2 (String.length patch)).
Proof.
  intros Hlen. unfold patch_to_flavour, slice_to.
  destruct (Nat.leb_spec 2 (String.length patch)); [lia|reflexivity].
Qed.

Lemma patch_to_flavour_short_witness :
  (String.length "1" < 2)%nat /\
  patch_to_flavour "1" = Panicked (PanicSliceBounds 2 1).
Proof.
  split; [simpl; lia|].
  apply (patch_to_flavour_short "1"). simpl; lia.
Defined.

Lemma substring_all (s : string) (k : nat) :
  substring 0 (String.length s + k) s = s.
Proof. induction s as [|c s IH]; simpl; [destruct k; reflexivity|now rewrite IH]. Qed.

Lemma prefix_empty (s : string) : String.prefix "" s = true.
Proof. destruct s; reflexivity. Qed.

Lemma strings_Cut_none (s : string) :
  strings_Contains s "." = false -> strings_Cut s "." = None.
Proof.
  induction s as [|c s IH]; [reflexivity|].
  cbn [strings_Contains strings_Cut]. intros [Hp Hs]%orb_false_elim.
  rewrite Hp, (IH Hs). reflexivity.
Qed.

Lemma strings_Cut_dot (before after : string) :
  strings_Contains before "." = false ->
  strings_Cut (before ++ "." ++ after) "." = Some (before, after).
Proof.
  induction before as [|c s IH].
  - intros _. change (("" ++ "." ++ after)%string) with (String "." after).
    cbn [strings_Cut String.prefix String.length substring].
    destruct (ascii_dec "." "."); [|congruence]. rewrite prefix_empty.
    replace (S (String.length after)) with (String.length after + 1)%nat by lia.
    now rewrite substring_all.
  - cbn [strings_Contains]. intros [Hp Hs]%orb_false_elim.
    change ((String c s ++ "." ++ after)%string)
      with (String c (s ++ "." ++ after)).
    cbn [strings_Cut].
    replace (String.prefix "." (String c (s ++ "." ++ after))) with false.
    + now rewrite (IH Hs).
    + cbn [String.prefix] in Hp |- *. destruct (ascii_dec "." c); [|reflexivity].
      now rewrite prefix_empty in Hp |- *.
Qed.

(** A patch without a dot is one component; [a.b] and [a.b.rest] fall
    into [a], [b] and, unsplit, [rest]. *)
Lemma SplitN_one (patch : string) :
  strings_Contains patch "." = false -> strings_SplitN patch "." 3 = [patch].
Proof. intros H. cbn. now rewrite strings_Cut_none. Qed.

Lemma SplitN_two (a b : string) :
  strings_Contains a "." = false -> strings_Contains b "." = false ->
  strings_SplitN (a ++ "." ++ b) "." 3 = [a; b].
Proof.
  intros Ha Hb. cbn [strings_SplitN].
  now rewrite strings_Cut_dot, strings_Cut_none.
Qed.

Lemma SplitN_three (a b rest : string) :
  strings_Contains a "." = false -> strings_Contains b "." = false ->
  strings_SplitN (a ++ "." ++ b ++ "." ++ rest) "." 3 = [a; b; rest].
Proof.
  intros Ha Hb. cbn [strings_SplitN].
  rewrite strings_Cut_dot by assumption.
  now rewrite strings_Cut_dot by assumption.
Qed.

Lemma wrap_int_small (z : Z) : - 2 ^ 63 <= z < 2 ^ 63 -> wrap_int z = z.
Proof. intros H. unfold wrap_int. rewrite Z.mod_small; lia. Qed.

Lemma wrap_int_add (x y : Z) :
  wrap_int (wrap_int x + wrap_int y) = wrap_int (x + y).
Proof.
  unfold wrap_int. f_equal.
  rewrite (Z.mod_eq (x + 2 ^ 63) (2 ^ 64)), (Z.mod_eq (y + 2 ^ 63) (2 ^ 64)) by lia.
  set (q1 := (x + 2 ^ 63) / 2 ^ 64). set (q2 := (y + 2 ^ 63) / 2 ^ 64).
  replace (x + 2 ^ 63 - 2 ^ 64 * q1 - 2 ^ 63 + (y + 2 ^ 63 - 2 ^ 64 * q2 - 2 ^ 63) + 2 ^ 63)
    with (x + y + 2 ^ 63 + (- q1 - q2) * 2 ^ 64) by ring.
  apply Z_mod_plus_full.
Qed.

(** What [patch_to_interface] does with the components [a] and [b]. *)
Lemma patch_to_interface_bits (patch a b : string) (rest : list string) :
  strings_SplitN patch "." 3 = a :: b :: rest ->
  patch_to_interface patch =
    match strconv_Atoi a, strconv_Atoi b with
    | inl e, _ => Panicked (PanicFailedWhile "parsing major portion of game version" e)
    | inr _, inl e => Panicked (PanicFailedWhile "parsing minor portion of game version" e)
    | inr major, inr minor => Ok (wrap_int (10000 * major + 100 * minor))
    end.
Proof.
  intros Hbits. unfold patch_to_interface. rewrite Hbits. cbn.
  destruct (strconv_Atoi a) as [e|major]; [reflexivity|].
  destruct (strconv_Atoi b) as [e|minor]; [reflexivity|].
  cbn. now rewrite wrap_int_add.
Qed.

(** C3 (as the code has it): a patch without a dot is refused with
    "failed to parse game version"; for a patch [a.b] or [a.b.rest],
    [a] and [b] free of dots, a component that [strconv.Atoi] refuses
    is reported by a panic naming the major or the minor portion; and
    when they parse as [major] and [minor] the result is
    [10000*major + 100*minor] in 64-bit two's-complement arithmetic,
    which is the exact value whenever that fits an [int].  The third
    component plays no part. *)
Theorem patch_to_interface_spec (patch a b : string) :
  (strings_Contains patch "." = false ->
   patch_to_interface patch =
     Panicked (PanicString ("failed to parse game version: " ++ patch))) /\
  (strings_Contains a "." = false -> strings_Contains b "." = false ->
   (patch = a ++ "." ++ b \/ exists rest, patch = a ++ "." ++ b ++ "." ++ rest) ->
   match strconv_Atoi a, strconv_Atoi b with
   | inl e, _ =>
       patch_to_interface patch =
         Panicked (PanicFailedWhile "parsing major portion of game version" e)
   | inr _, inl e =>
       patch_to_interface patch =
         Panicked (PanicFailedWhile "parsing minor portion of game version" e)
   | inr major, inr minor =>
       patch_to_interface patch = Ok (wrap_int (10000 * major + 100 * minor)) /\
       (- 2 ^ 63 <= 10000 * major + 100 * minor < 2 ^ 63 ->
        patch_to_interface patch = Ok (10000 * major + 100 * minor))
   end).
Proof.
  split.
  - intros H. unfold patch_to_interface. now rewrite SplitN_one.
  - intros Ha Hb Hshape.
    assert (exists rest, strings_SplitN patch "." 3 = a :: b :: rest) as [rest Hbits].
    { destruct Hshape as [->|[rest ->]];
        [exists []; now apply SplitN_two | exists [rest]; now apply SplitN_three]. }
    rewrite (patch_to_interface_bits _ _ _ _ Hbits).
    destruct (strconv_Atoi a) as [e|major]; [reflexivity|].
    destruct (strconv_Atoi b) as [e|minor]; [reflexivity|].
    split; [reflexivity|]. intros Hfit. now rewrite wrap_int_small.
Qed.

Lemma patch_to_interface_spec_witness :
  patch_to_interface "10.1.5" = Ok 100100 /\
  patch_to_interface "1.14.3" = Ok 11400 /\
  patch_to_interface "10" = Panicked (PanicString "failed to parse game version: 10").
Proof.
  split; [|split].
  - destruct (proj2 (patch_to_interface_spec "10.1.5" "10" "1") eq_refl eq_refl
                (or_intror (ex_intro _ "5" eq_refl))) as [_ H].
    apply H. split; [apply Z.leb_le|apply Z.ltb_lt]; reflexivity.
  - destruct (proj2 (patch_to_interface_spec "1.14.3" "1" "14") eq_refl eq_refl
                (or_intror (ex_intro _ "3" eq_refl))) as [_ H].
    apply H. split; [apply Z.leb_le|apply Z.ltb_lt]; reflexivity.
  - exact (proj1 (patch_to_interface_spec "10" "" "") eq_refl).
Defined.

(** C3 as stated fails where the product leaves the range of [int]:
    the components of "1000000000000000.0" parse as 10^15 and 0, and
    the result is 10^19 - 2^64 rather than 10^19. *)
Lemma patch_to_interface_overflow :
  strconv_Atoi "1000000000000000" = inr 1000000000000000 /\
  strconv_Atoi "0" = inr 0 /\
  patch_to_interface "1000000000000000.0" = Ok (-8446744073709551616) /\
  patch_to_interface "1000000000000000.0" <> Ok (10000 * 1000000000000000 + 100 * 0).
Proof. repeat split; try reflexivity. vm_compute. discriminate. Qed.

(** ** Running computations *)

Section RunFacts.
Context {W : Type} (handle : forall X, Event X -> W -> X * W).
Context {lib : GoLib}.

Local Arguments fmt_Sprintf : simpl never.
Local Arguments String.append : simpl never.

Lemma run_bind {A B} (p : Prog A) (k : A -> Prog B) (w : W) :
  run handle (p ≫= k) w =
    match run handle p w with
    | (Ok a, t, w1) => let '(r, t2, w2) := run handle (k a) w1 in (r, (t ++ t2)%list, w2)
    | (Panicked v, t, w1) => (Panicked v, t, w1)
    end.
Proof.
  revert w. induction p as [a|v|X e h IH]; intros w.
  - cbn. destruct (run handle (k a) w) as [[r t] w2]. reflexivity.
  - reflexivity.
  - cbn. destruct (handle X e w) as [x w1].
    specialize (IH x w1). unfold mbind, Prog_bind in IH. rewrite IH.
    destruct (run handle (h x) w1) as [[[a|v] t] w2]; [|reflexivity].
    destruct (run handle (k a) w2) as [[r t2] w3]. reflexivity.
Qed.

Lemma run_trigger {X} (e : Event X) (w : W) :
  run handle (trigger e) w =
    (Ok (handle _ e w).1, [Obs e (handle _ e w).1], (handle _ e w).2).
Proof. cbn. destruct (handle X e w). reflexivity. Qed.

Lemma run_lift {A} (r : result A) (w : W) : run handle (lift r) w = (r, [], w).
Proof. destruct r; reflexivity. Qed.

Lemma effects_cons (o : obs) (t : list obs) :
  effects (o :: t) =
    match effect_of o with Some e => e :: effects t | None => effects t end.
Proof. reflexivity. Qed.

Lemma effects_app (t1 t2 : list obs) : effects (t1 ++ t2)%list = (effects t1 ++ effects t2)%list.
Proof. apply omap_app. Qed.

(** [run_cmd] never panics: it logs, runs the command and returns. *)
Lemma run_run_cmd (command path : string) (w : W) :
  let w1 := (handle _ (Stderr (executing command path)) w).2 in
  let r := (handle _ (Run command path) w1).1 in
  run handle (run_cmd command path) w =
    (Ok (match run_err r with Some (ExitError code) => code | _ => 0 end,
         strings_TrimSpace (run_stdout r), strings_TrimSpace (run_stderr r)),
     [Obs (Stderr (executing command path)) tt; Obs (Run command path) r],
     (handle _ (Run command path) w1).2).
Proof.
  unfold run_cmd, executing. cbn.
  destruct (handle _ (Stderr _) w) as [[] w1]. cbn.
  destruct (handle _ (Run command path) w1) as [r w2]. cbn.
  destruct (run_err r) as [[| |]|]; reflexivity.
Qed.
Lemma run_all_cmd_cons (command : string) (rest : list string) (cwd : string) (w : W) :
  let w1 := (handle _ (Stderr (executing command cwd)) w).2 in
  let r := (handle _ (Run command cwd) w1).1 in
  let w2 := (handle _ (Run command cwd) w1).2 in
  let ran := [Obs (Stderr (executing command cwd)) tt; Obs (Run command cwd) r] in
  run handle (run_all_cmd (command :: rest) cwd) w =
    if match run_err r with Some (ExitError code) => code | _ => 0 end =? 0 then
      let '(r', t, w3) := run handle (run_all_cmd rest cwd) w2 in
      (r', (ran ++ t)%list, w3)
    else
      (Panicked (PanicString
         (fmt_Sprintf "command '%s' failed: %s"
            [ArgS command; ArgS (strings_TrimSpace (run_stderr r))])), ran, w2).
Proof.
  intros w1 r w2 ran. unfold run_all_cmd. cbn [for_range].
  rewrite run_bind, run_bind, run_run_cmd. fold w1 r w2 ran.
  destruct (_ =? 0); cbn; [|reflexivity].
  destruct (run handle _ w2) as [[r' t] w3]. reflexivity.
Qed.

(** C9: when running a command fails with an error that is not an
    exit-status error, [run_cmd] returns the return code 0, and
    [run_all_cmd] goes on with the commands that follow. *)
Theorem run_cmd_start_failure (command cwd : string) (rest : list string)
    (w : W) (e : error) :
  let w1 := (handle _ (Stderr (executing command cwd)) w).2 in
  let r := (handle _ (Run command cwd) w1).1 in
  let w2 := (handle _ (Run command cwd) w1).2 in
  let ran := [Obs (Stderr (executing command cwd)) tt; Obs (Run command cwd) r] in
  run_err r = Some e -> (forall code, e <> ExitError code) ->
  run handle (run_cmd command cwd) w =
    (Ok (0, strings_TrimSpace (run_stdout r), strings_TrimSpace (run_stderr r)),
     ran, w2) /\
  run handle (run_all_cmd (command :: rest) cwd) w =
    let '(r', t, w3) := run handle (run_all_cmd rest cwd) w2 in
    (r', (ran ++ t)%list, w3).
Proof.
  intros w1 r w2 ran He Hexit. split.
  - rewrite run_run_cmd. fold w1 r w2 ran. rewrite He.
    destruct e; [reflexivity|exfalso; eapply Hexit; reflexivity|reflexivity].
  - rewrite run_all_cmd_cons. fold w1 r w2 ran. rewrite He.
    destruct e; [reflexivity|exfalso; eapply Hexit; reflexivity|reflexivity].
Qed.

(** The shell commands of [run_all_cmd] run in order; they all ran,
    none with a non-zero exit status, if [run_all_cmd] returns. *)
Lemma run_all_cmd_effects (command_list : list string) (cwd : string) (w : W) :
  let '(r, t, _) := run handle (run_all_cmd command_list cwd) w in
  effects t `prefix_of` map (fun c => EShell c cwd) command_list /\
  (forall u, r = Ok u ->
     effects t = map (fun c => EShell c cwd) command_list /\
     forallb (fun o => negb (exit_failure o)) t = true).
Proof.
  revert w. induction command_list as [|command rest IH]; intros w.
  - cbn. split; [reflexivity|]. intros u _. split; reflexivity.
  - rewrite run_all_cmd_cons.
    set (w1 := (handle _ (Stderr _) w).2).
    set (r := (handle _ (Run command cwd) w1).1).
    set (w2 := (handle _ (Run command cwd) w1).2).
    destruct (_ =? 0) eqn:Hrc.
    + specialize (IH w2). destruct (run handle _ w2) as [[r' t] w3].
      destruct IH as [Hpre Hall]. cbn. fold (effects t). split.
      * apply prefix_cons, Hpre.
      * intros u Hu. destruct (Hall u Hu) as [-> ->]. split; [reflexivity|].
        rewrite andb_true_r.
        destruct (run_err r) as [[| |]|]; try reflexivity.
        cbn in Hrc |- *. now rewrite Hrc.
    + cbn. split; [|discriminate].
      apply prefix_cons, prefix_nil.
Qed.

(** [fetch_addon_version] runs one command, [git describe]. *)
Lemma fetch_addon_version_effects (addon_output_dir : string) (w : W) :
  let '(_, t, _) := run handle (fetch_addon_version addon_output_dir) w in
  effects t = [EShell "git describe --tags --abbrev=0" addon_output_dir].
Proof.
  unfold fetch_addon_version. rewrite run_bind, run_run_cmd. cbn.
  destruct (negb _); [|reflexivity].
  destruct (_ || _); [reflexivity|].
  destruct (_ =? 0); reflexivity.
Qed.

(** When the head of the loop body returns, it has recloned the
    mirror repository and read its most recent tag, nothing else. *)
Lemma mirror_query_effects (addon : Addon) (script_path : string) (w w0 : W)
    (addon_output_dir current_version : string) (t0 : list obs) :
  run handle (mirror_query addon script_path) w
    = (Ok (addon_output_dir, current_version), t0, w0) ->
  effects t0 = query_order addon script_path addon_output_dir.
Proof.
  unfold mirror_query, fetch_repo. rewrite run_bind.
  pose proof (run_all_cmd_effects
    [fmt_Sprintf "rm -rf %s" [ArgS (Slug addon)];
     ("git clone ssh://git@github.com/ogri-la/" ++ Slug addon)%string] script_path w) as Hrepo.
  destruct (run handle (run_all_cmd _ script_path) w) as [[[[]|v] t1] w1]; [|intros [=]].
  destruct Hrepo as [_ Hrepo]. destruct (Hrepo tt eq_refl) as [Ht1 _].
  rewrite run_bind, run_trigger.
  destruct (handle _ (Abs (Slug addon)) w1) as [[err|dir] w2]; cbn [fst snd];
    rewrite run_bind, run_lift; cbn [panicOnErr]; [intros [=]|].
  rewrite run_bind.
  pose proof (fetch_addon_version_effects dir w2) as Hver.
  destruct (run handle (fetch_addon_version dir) w2) as [[[cur|v] t2] w3]; [|intros [=]].
  cbn. intros [= <- <- <- <-].
  rewrite app_nil_r, effects_app, Ht1. cbn. fold (effects t2).
  rewrite Hver. reflexivity.
Qed.

(** C1: when the most recent tag of the freshly recloned mirror
    repository equals [addon.Version], the loop body returns after
    logging the fact: all it has done to the world is to reclone the
    repository and to read its tag (no download, no file written, no
    commit, tag or push, no hosted release), and the loop goes on
    with the next addon. *)
Theorem mirror_skips_up_to_date (app : IMirror) (script_path token : string)
    (addon : Addon) (rest : list Addon) (w w0 : W)
    (addon_output_dir current_version : string) (t0 : list obs) :
  run handle (mirror_query addon script_path) w
    = (Ok (addon_output_dir, current_version), t0, w0) ->
  current_version = Version addon ->
  let skipping :=
    Stderr (fmt_Sprintf "%s == %s, skipping"
              [ArgS current_version; ArgS (Version addon)]) in
  let t := (t0 ++ [Obs skipping tt])%list in
  let w1 := (handle _ skipping w0).2 in
  run handle (mirror_addon app script_path token addon) w = (Ok tt, t, w1) /\
  effects t = query_order addon script_path addon_output_dir /\
  run handle (for_range (addon :: rest) (mirror_addon app script_path token)) w =
    let '(r, t', w') :=
      run handle (for_range rest (mirror_addon app script_path token)) w1 in
    (r, (t ++ t')%list, w').
Proof.
  intros Hquery -> skipping t w1.
  assert (run handle (mirror_addon app script_path token addon) w = (Ok tt, t, w1))
    as Hbody.
  { unfold mirror_addon. rewrite run_bind, Hquery.
    rewrite String.eqb_refl. unfold stderr. rewrite run_trigger.
    fold skipping. fold w1. destruct (handle _ skipping w0).1. reflexivity. }
  split; [exact Hbody|split].
  - subst t. rewrite effects_app, (mirror_query_effects _ _ _ _ _ _ _ Hquery).
    reflexivity.
  - cbn [for_range]. rewrite run_bind, Hbody. reflexivity.
Qed.

(** ** Publishing a release *)



(** One turn of the upload loop: the media type is guessed first, then
    the file is opened, then it is uploaded. *)
Lemma run_upload_asset (addon : Addon) (token : string) (id : Z) (path : string) (w : W) :
  run handle (upload_asset addon token id path) w =
    match guess_media_type path with
    | Panicked v => (Panicked v, [], w)
    | Ok media_type =>
        let opened := handle _ (Open path) w in
        match opened.1 with
        | inl err =>
            (Panicked (PanicFailedWhile "opening asset" err),
             [Obs (Open path) opened.1], opened.2)
        | inr fh =>
            let upload :=
              UploadReleaseAsset token "ogri-la" (Slug addon) id
                (filepath_Base path) (filepath_Base path) media_type fh in
            let uploaded := handle _ upload opened.2 in
            (match uploaded.1 with
             | Some err => Panicked (PanicFailedWhile "uploading asset" err)
             | None => Ok tt
             end,
             [Obs (Open path) opened.1; Obs upload uploaded.1], uploaded.2)
        end
    end.
Proof.
  unfold upload_asset. rewrite run_bind, run_lift.
  destruct (guess_media_type path) as [media_type|v]; [|reflexivity].
  rewrite run_bind, run_trigger.
  destruct (handle _ (Open path) w) as [[err|fh] w1]; cbn [fst snd];
    rewrite run_bind, run_lift; cbn [panicOnErr]; [reflexivity|].
  rewrite run_bind, run_trigger.
  destruct (handle _ _ w1) as [[err|] w2]; cbn [fst snd];
    rewrite run_lift; reflexivity.
Qed.

(** What one turn of the upload loop does to the world: it uploads
    the asset or nothing, and when it does not return it has panicked
    on the media type (nothing uploaded) or on a failed call. *)
Lemma upload_asset_effects (addon : Addon) (token : string) (id : Z) (path : string)
    (w : W) :
  let '(r, t, _) := run handle (upload_asset addon token id path) w in
  (r = Ok tt /\ effects t = [EUpload (filepath_Base path)]) \/
  (r = Panicked (PanicString ("failed to guess mime for given path: " ++ path)) /\
   effects t = [] /\ forall m, guess_media_type path <> Ok m) \/
  ((exists doing err, r = Panicked (PanicFailedWhile doing err)) /\
   (effects t = [] \/ effects t = [EUpload (filepath_Base path)])).
Proof.
  rewrite run_upload_asset. unfold guess_media_type.
  destruct (String.eqb _ ".zip"); [|destruct (String.eqb _ ".json")].
  3: { right; left. repeat split; discriminate. }
  all: cbv zeta; destruct (handle _ (Open path) w) as [[err|fh] w1]; cbn [fst snd];
    [right; right; split; [eauto|left; reflexivity]|];
    destruct (handle _ _ w1) as [[err|] w2]; cbn [fst snd];
    [right; right; split; [eauto|right; reflexivity]|left; split; reflexivity].
Qed.

(** The assets are uploaded in the order of the list; all of them have
    been when the loop returns. *)
Lemma upload_loop_effects (addon : Addon) (token : string) (id : Z)
    (asset_list : list string) (w : W) :
  let '(r, t, _) := run handle (for_range asset_list (upload_asset addon token id)) w in
  effects t `prefix_of` map (fun p => EUpload (filepath_Base p)) asset_list /\
  (forall u, r = Ok u ->
     effects t = map (fun p => EUpload (filepath_Base p)) asset_list).
Proof.
  revert w. induction asset_list as [|path rest IH]; intros w.
  - cbn. split; [reflexivity|]. intros _ _. reflexivity.
  - cbn [for_range]. rewrite run_bind.
    pose proof (upload_asset_effects addon token id path w) as Hone.
    destruct (run handle (upload_asset addon token id path) w) as [[r1 t1] w1].
    destruct Hone as [[-> Ht1]|[[-> [Ht1 _]]|[[doing [err ->]] Ht1]]].
    + specialize (IH w1). destruct (run handle _ w1) as [[r2 t2] w2].
      destruct IH as [Hpre Hall]. rewrite effects_app, Ht1. cbn [map app]. split.
      * apply prefix_cons, Hpre.
      * intros u Hu. now rewrite (Hall u Hu).
    + rewrite Ht1. split; [apply prefix_nil|discriminate].
    + split; [|discriminate].
      destruct Ht1 as [->| ->]; [apply prefix_nil|apply prefix_cons, prefix_nil].
Qed.



Lemma create_tag_release_effects (addon : Addon) (token : string)
    (asset_list : list string) (w : W) :
  let '(r, t, _) := run handle (create_tag_release addon token asset_list) w in
  let uploads := map (fun p => EUpload (filepath_Base p)) asset_list in
  effects t `prefix_of` ERelease (Slug addon) (Version addon) :: uploads /\
  (forall u, r = Ok u -> effects t = ERelease (Slug addon) (Version addon) :: uploads).
Proof.
  unfold create_tag_release. rewrite run_bind, run_trigger.
  destruct (handle _ _ w) as [[err|id] w1]; cbn [fst snd];
    rewrite run_bind, run_lift; cbn [panicOnErr].
  - cbv zeta. split; [apply prefix_cons, prefix_nil|discriminate].
  - pose proof (upload_loop_effects addon token id asset_list w1) as Hloop.
    destruct (run handle _ w1) as [[r t] w2]. cbv zeta. cbn [app].
    rewrite effects_cons. cbn [effect_of]. destruct Hloop as [Hpre Hall].
    split; [apply prefix_cons, Hpre|].
    intros u Hu. now rewrite (Hall u Hu).
Qed.

Lemma run_write_release_json (release_json addon_output_dir : string) (w : W) :
  let path := filepath_Join [addon_output_dir; "release.json"] in
  let written := handle _ (WriteFile path release_json perm_0644) w in
  run handle (write_release_json release_json addon_output_dir) w =
    match written.1 with
    | Some err =>
        (Panicked (PanicFailedWhile "writing release.json to file" err),
         [Obs (WriteFile path release_json perm_0644) written.1], written.2)
    | None =>
        (Ok path,
         [Obs (WriteFile path release_json perm_0644) written.1;
          Obs (Stderr ("wrote: " ++ path)) tt],
         (handle _ (Stderr ("wrote: " ++ path)) written.2).2)
    end.
Proof.
  unfold write_release_json. rewrite run_bind, run_trigger.
  destruct (handle _ _ w) as [[err|] w1]; cbn [fst snd];
    rewrite run_bind, run_lift; cbn [panicOnErr_]; [reflexivity|].
  unfold stderr. rewrite run_bind, run_trigger.
  destruct (handle _ _ w1) as [[] w2]. reflexivity.
Qed.

(** Only a shell command can end with a non-zero exit status. *)
Lemma exit_failure_shell (t : list obs) :
  (forall command dir, ~ In (EShell command dir) (effects t)) ->
  forallb (fun o => negb (exit_failure o)) t = true.
Proof.
  induction t as [|[X e x] t IH]; [reflexivity|].
  intros Hnone. cbn [forallb]. rewrite IH.
  - rewrite andb_true_r. destruct e; try reflexivity.
    exfalso. apply (Hnone command dir). rewrite effects_cons. left. reflexivity.
  - intros command dir Hin. apply (Hnone command dir).
    rewrite effects_cons. destruct (effect_of _); [right|]; exact Hin.
Qed.

Lemma prefix_In {A} (x : A) (l1 l2 : list A) : l1 `prefix_of` l2 -> In x l1 -> In x l2.
Proof. intros [k ->] Hin. apply in_or_app. now left. Qed.

(** The order in which an update is published, C2 for the part of the
    loop body that follows the acquisition of the artifact. *)
Lemma publish_update_order (addon : Addon) (addon_output_dir token zip_output_path : string)
    (w : W) :
  let '(r, t, _) :=
    run handle (publish_update addon addon_output_dir token zip_output_path) w in
  effects t `prefix_of` publish_order addon addon_output_dir zip_output_path /\
  (forall u, r = Ok u ->
     effects t = publish_order addon addon_output_dir zip_output_path) /\
  (In (ERelease (Slug addon) (Version addon)) (effects t) ->
     forallb (fun o => negb (exit_failure o)) t = true).
Proof.
  unfold publish_update. rewrite run_bind, run_lift.
  destruct (gen_release_json _ _ _) as [release_json|v].
  2: { cbn. split; [apply prefix_nil|]. split; [discriminate|intros []]. }
  rewrite run_bind, run_write_release_json.
  set (path := filepath_Join [addon_output_dir; "release.json"]).
  destruct (handle _ (WriteFile path release_json perm_0644) w) as [[err|] w1];
    cbn [fst snd].
  { cbn. split; [apply prefix_cons, prefix_nil|].
    split; [discriminate|]. intros [[=]|[]]. }
  set (w2 := (handle _ (Stderr _) w1).2). rewrite run_bind.
  unfold tag_addon.
  set (cmd_list := [_; _; _; _]).
  pose proof (run_all_cmd_effects cmd_list addon_output_dir w2) as Htag.
  destruct (run handle (run_all_cmd cmd_list addon_output_dir) w2) as [[[[]|v] t1] w3].
  - destruct Htag as [_ Htag]. destruct (Htag tt eq_refl) as [Ht1 Hclean].
    pose proof (create_tag_release_effects addon token [zip_output_path; path] w3) as Hrel.
    destruct (run handle _ w3) as [[r t2] w4]. cbv zeta in Hrel.
    destruct Hrel as [Hpre Hall]. cbn [app].
    rewrite effects_cons, effects_cons. cbn [effect_of].
    rewrite effects_app, Ht1. unfold publish_order. fold path. cbn [map app].
    split; [|split].
    + do 5 apply prefix_cons. exact Hpre.
    + intros u Hu. now rewrite (Hall u Hu).
    + intros _. cbn [forallb exit_failure negb andb]. rewrite forallb_app, Hclean.
      cbn [andb]. apply exit_failure_shell. intros command dir Hin.
      apply (prefix_In _ _ _ Hpre) in Hin. cbn in Hin.
      destruct Hin as [[=]|[[=]|[[=]|[]]]].
  - destruct Htag as [Hpre _]. cbn [app].
    rewrite effects_cons, effects_cons. cbn [effect_of].
    unfold publish_order. fold path. split; [|split].
    + apply prefix_cons.
      destruct Hpre as [k Hk]. cbn [map] in Hk.
      exists (k ++ [ERelease (Slug addon) (Version addon);
                    EUpload (filepath_Base zip_output_path);
                    EUpload (filepath_Base path)])%list.
      rewrite app_assoc, <- Hk. reflexivity.
    + discriminate.
    + intros [[=]|Hin]. apply (prefix_In _ _ _ Hpre) in Hin. cbn in Hin.
      destruct Hin as [[=]|[[=]|[[=]|[[=]|[]]]]].
Qed.




(** ** Acquiring the artifact *)

Lemma run_defer {A} (d : Prog unit) (p : Prog A) (w : W) :
  run handle (defer d p) w =
    let '(r, t, w1) := run handle p w in
    let '(rd, td, w2) := run handle d w1 in
    (match rd with Ok _ => r | Panicked v => Panicked v end, (t ++ td)%list, w2).
Proof.
  revert w. induction p as [a|v|X e h IH]; intros w.
  - cbn [defer]. rewrite run_bind. cbn.
    destruct (run handle d w) as [[[[]|v] td] w2]; [|reflexivity].
    now rewrite app_nil_r.
  - cbn [defer]. rewrite run_bind. cbn.
    destruct (run handle d w) as [[[[]|v'] td] w2]; [|reflexivity].
    now rewrite app_nil_r.
  - cbn. destruct (handle X e w) as [x w1]. rewrite IH.
    destruct (run handle (h x) w1) as [[r t] w2].
    destruct (run handle d w2) as [[rd td] w3]. reflexivity.
Qed.

(** C7 (as the code has it): [download_addon] asks [os.Stat] about
    the cache path [<output_path>/<slug>--<version>.zip].  Unless
    [os.Stat] reports that the file does not exist (it finds the
    file, or it fails with any other error), that path is returned
    and nothing else is done: no network request.  If [os.Stat]
    reports that the file does not exist, [addon.Url] is requested; a
    transport error makes [download_addon] panic while "downloading
    addon to file", and a status other than 200 with "non-200
    response downloading zip file", the response body being closed. *)
Theorem download_addon_cache (addon : Addon) (output_path : string) (w : W) :
  let zip_output_path :=
    filepath_Join
      [output_path; fmt_Sprintf "%s--%s.zip" [ArgS (Slug addon); ArgS (Version addon)]] in
  let stat := handle _ (Stat zip_output_path) w in
  let downloading := Stderr ("downloading: " ++ Url addon) in
  let got := handle _ (HttpGet (Url addon)) (handle _ downloading stat.2).2 in
  ((forall e, stat.1 = Some e -> is_ErrNotExist e = false) ->
   run handle (download_addon TukuiMirror addon output_path) w =
     (Ok zip_output_path, [Obs (Stat zip_output_path) stat.1], stat.2)) /\
  (forall e, stat.1 = Some e -> is_ErrNotExist e = true ->
   let '(r, t, _) := run handle (download_addon TukuiMirror addon output_path) w in
   exists t',
     t = Obs (Stat zip_output_path) stat.1 :: Obs downloading tt ::
         Obs (HttpGet (Url addon)) got.1 :: t' /\
     match got.1 with
     | inl err =>
         r = Panicked (PanicFailedWhile "downloading addon to file" err) /\ t' = []
     | inr resp =>
         StatusCode resp <> 200 ->
         r = Panicked (PanicString "non-200 response downloading zip file") /\
         t' = [Obs (Close (Body resp)) tt]
     end).
Proof.
  intros zip_output_path stat downloading got.
  cbn [download_addon TukuiMirror]. unfold TukuiMirror_download_addon.
  fold zip_output_path. rewrite run_bind.
  unfold file_exists. rewrite run_bind, run_trigger. fold stat.
  split.
  - intros Hexists. destruct stat.1 as [e|]; [rewrite (Hexists e eq_refl)|]; reflexivity.
  - intros e He Hmissing. rewrite He, Hmissing. cbn [run app].
    unfold stderr. rewrite run_bind, run_trigger. fold downloading.
    destruct (handle _ downloading stat.2).1.
    rewrite run_bind, run_trigger. fold got.
    destruct got as [[err|resp] w3]; cbn [fst snd];
      rewrite run_bind, run_lift; cbn [panicOnErr].
    + exists []. split; [reflexivity|split; reflexivity].
    + rewrite run_defer, run_bind, run_lift.
      destruct (StatusCode resp =? 200) eqn:Hstatus; cbn [ensure].
      * destruct (run handle _ w3) as [[r t] w4]. rewrite run_trigger.
        destruct (handle _ (Close (Body resp)) w4) as [[] w5]. cbn.
        eexists. split; [reflexivity|].
        intros Hne. apply Z.eqb_eq in Hstatus. contradiction.
      * rewrite run_trigger.
        destruct (handle _ (Close (Body resp)) w3) as [[] w4]. cbn.
        eexists. split; [reflexivity|]. intros _. split; reflexivity.
Qed.
End RunFacts.

Lemma run_cmd_start_failure_witness :
  run Demo.handle (run_all_cmd ["git push"; "git push --tags"] "/srv/mirror/elvui")
    Demo.stalled =
  let '(r, t, w) :=
    run Demo.handle (run_all_cmd ["git push --tags"] "/srv/mirror/elvui") Demo.stalled in
  (r, ([Obs (Stderr (executing "git push" "/srv/mirror/elvui")) tt;
        Obs (Run "git push" "/srv/mirror/elvui") (Demo.cannot_start "git push")] ++ t)%list,
   w).
Proof.
  refine (proj2 (run_cmd_start_failure Demo.handle "git push" "/srv/mirror/elvui"
                   ["git push --tags"] Demo.stalled _ _ _)).
  - reflexivity.
  - discriminate.
Defined.

(** ** The theorems at work in the simulated world *)

Lemma mirror_skips_up_to_date_witness :
  effects
    (run Demo.handle (mirror_addon TukuiMirror "/srv/mirror" "ghp_token" Demo.elvui)
       (Demo.calm "13.33")).1.2 =
  query_order Demo.elvui "/srv/mirror" "/srv/mirror/elvui".
Proof.
  pose proof (mirror_skips_up_to_date Demo.handle TukuiMirror "/srv/mirror" "ghp_token"
                Demo.elvui [] (Demo.calm "13.33") _ _ _ _ eq_refl) as H.
  lapply H; [clear H; intros [Hbody [Heffects _]]|vm_compute; reflexivity].
  rewrite Hbody. exact Heffects.
Defined.


Lemma download_addon_cache_witness :
  let path := "/srv/mirror/elvui/elvui--13.33.zip" in
  run Demo.handle (download_addon TukuiMirror Demo.elvui "/srv/mirror/elvui") Demo.cached
    = (Ok path, [Obs (Stat path) None], Demo.cached) /\
  let '(r, t, _) :=
    run Demo.handle (download_addon TukuiMirror Demo.elvui "/srv/mirror/elvui")
      Demo.refused in
  exists t',
    t = Obs (Stat path) (Some Demo.no_such_file) ::
        Obs (Stderr "downloading: https://api.tukui.org/v1/download/elvui") tt ::
        Obs (HttpGet "https://api.tukui.org/v1/download/elvui")
          (inr {| StatusCode := 404; Body := 1 |}) :: t' /\
    (404 <> 200 ->
     r = Panicked (PanicString "non-200 response downloading zip file") /\
     t' = [Obs (Close 1) tt]).
Proof.
  intros path. split.
  - pose proof (proj1 (download_addon_cache Demo.handle Demo.elvui "/srv/mirror/elvui"
                         Demo.cached)) as H.
    assert (forall e, @None error = Some e -> is_ErrNotExist e = false) as Hfound
      by discriminate.
    exact (H Hfound).
  - exact (proj2 (download_addon_cache Demo.handle Demo.elvui "/srv/mirror/elvui"
                    Demo.refused) Demo.no_such_file eq_refl eq_refl).
Defined.

(** C7 as stated fails where [os.Stat] fails otherwise than with "does
    not exist": with a regular file in the place of a directory of
    the cache path there is no file at that path, and yet
    [download_addon] returns it and requests nothing. *)
Lemma download_addon_stat_error :
  let path := "/srv/mirror/elvui/elvui--13.33.zip" in
  Demo.files (Demo.calm "") = [] /\
  is_ErrNotExist (Demo.not_a_directory path) = false /\
  run Demo.obstructed (download_addon TukuiMirror Demo.elvui "/srv/mirror/elvui")
    (Demo.calm "")
    = (Ok path, [Obs (Stat path) (Some (Demo.not_a_directory path))], Demo.calm "").
Proof. repeat split. Qed.




(** ** The rendered metadata document *)

(** The document is the template with the fields put in as they are. *)
Lemma release_json_text (name version filename metadata_json : string) :
  fmt_Sprintf release_json
    [ArgS name; ArgS version; ArgS filename; ArgS metadata_json] =
  document_text name version filename metadata_json.
Proof. reflexivity. Qed.

Lemma release_flavour_json_text (flavour : string) (iface : Z) :
  fmt_Sprintf release_flavour_json [ArgS flavour; ArgD iface] =
  metadata_text (flavour, iface).
Proof. reflexivity. Qed.

(** ** Reading the rendered document *)

Import Json.

#[local] Arguments String.append !_ _ / : simpl nomatch.
#[local] Arguments read_number : simpl never.
#[local] Arguments read_value : simpl nomatch.
#[local] Arguments strconv_Itoa : simpl never.

Lemma read_string_plain (s rest : string) :
  plain s = true -> read_string InString (s ++ String dquote rest) = Some (s, rest).
Proof.
  induction s as [|c s IH]; [reflexivity|].
  cbn [plain]. intros [Hc Hs]%andb_prop.
  change ((String c s ++ String dquote rest)%string)
    with (String c (s ++ String dquote rest)).
  cbn [read_string]. rewrite (IH Hs).
  rewrite Hc. unfold plain_char in Hc.
  destruct (Ascii.eqb c dquote); [discriminate|].
  destruct (Ascii.eqb c backslash); [discriminate|]. reflexivity.
Qed.

Lemma flavour_table_values (prefix entry : string) :
  flavour_table !! prefix = Some entry ->
  entry = "classic" \/ entry = "classic-tbc" \/ entry = "classic-wotlk".
Proof.
  unfold flavour_table.
  intros [[_ <-]|[_ [[_ <-]|[_ [_ <-]%lookup_singleton_Some]]%lookup_insert_Some]]%lookup_insert_Some;
    auto.
Qed.

Lemma patch_to_flavour_plain (patch flavour : string) :
  patch_to_flavour patch = Ok flavour -> plain flavour = true.
Proof.
  unfold patch_to_flavour. destruct (slice_to patch 2) as [prefix|v]; [|discriminate].
  cbn [mbind result_bind].
  destruct (flavour_table !! prefix) as [entry|] eqn:Hentry.
  - intros [= <-].
    destruct (flavour_table_values _ _ Hentry) as [->|[->| ->]]; reflexivity.
  - intros [= <-]. reflexivity.
Qed.

(** Decimal numerals, as [strconv_Itoa] prints them. *)

Lemma span_digits_uint (d : Decimal.uint) (c : ascii) (rest : string) :
  is_digit c = false ->
  span_digits (NilEmpty.string_of_uint d ++ String c rest)
    = (NilEmpty.string_of_uint d, String c rest).
Proof.
  intros Hc. induction d; cbn [NilEmpty.string_of_uint];
    try (change ((String ?a ?s ++ ?t)%string) with (String a (s ++ t));
         cbn [span_digits]; rewrite IHd; reflexivity).
  change (("" ++ String c rest)%string) with (String c rest).
  cbn [span_digits]. now rewrite Hc.
Qed.

Lemma to_uint_no_leading_zero (p : positive) (d : Decimal.uint) :
  Pos.to_uint p <> Decimal.D0 d.
Proof.
  pose proof (DecimalPos.Unsigned.to_of (Pos.to_uint p)) as Hnorm.
  rewrite DecimalPos.Unsigned.of_to in Hnorm. cbn [N.to_uint] in Hnorm.
  intros Hzero. unfold Decimal.unorm in Hnorm.
  destruct (Decimal.nzhead (Pos.to_uint p)) eqn:Hhead; try congruence.
  - exact (DecimalPos.Unsigned.to_uint_nonzero p Hnorm).
  - exact (DecimalFacts.nzhead_nonzero _ _ Hhead).
Qed.

(** The digits of a numeral that is not empty and has no leading zero
    are taken whole. *)
Lemma read_digits_uint (sign : string) (d : Decimal.uint) (c : ascii) (rest : string) :
  d <> Decimal.Nil -> (forall d', d <> Decimal.D0 d') -> is_digit c = false ->
  (let '(ds, rest) := span_digits (NilEmpty.string_of_uint d ++ String c rest) in
   match ds with
   | EmptyString => None
   | String a ds' =>
       if Ascii.eqb a "0" && negb (String.eqb ds' "") then None
       else
         match NilEmpty.int_of_string (sign ++ ds) with
         | Some d => Some (Z.of_int d, rest)
         | None => None
         end
   end) =
  match NilEmpty.int_of_string (sign ++ NilEmpty.string_of_uint d) with
  | Some d => Some (Z.of_int d, String c rest)
  | None => None
  end.
Proof.
  intros Hnil Hzero Hc. rewrite span_digits_uint by assumption.
  destruct d; try congruence; reflexivity.
Qed.

Lemma string_of_uint_nonnil (d : Decimal.uint) :
  d <> Decimal.Nil ->
  match d with
  | Decimal.Nil => "0"
  | _ => NilEmpty.string_of_uint d
  end = NilEmpty.string_of_uint d.
Proof. destruct d; congruence. Qed.

Lemma read_number_Itoa (z : Z) (c : ascii) (rest : string) :
  is_digit c = false ->
  read_number (strconv_Itoa z ++ String c rest) = Some (z, String c rest).
Proof.
  intros Hc. unfold strconv_Itoa.
  pose proof (DecimalZ.of_to z) as Hz.
  pose proof (NilEmpty.isi (Z.to_int z)) as Hisi.
  destruct z as [|p|p]; cbn [Z.to_int] in Hz, Hisi |- *.
  - unfold read_number. cbn. now rewrite Hc.
  - pose proof (DecimalPos.Unsigned.to_uint_nonnil p) as Hnil.
    pose proof (to_uint_no_leading_zero p) as Hzero.
    unfold NilZero.string_of_int, NilZero.string_of_uint.
    rewrite string_of_uint_nonnil by assumption.
    cbn [NilEmpty.string_of_int] in Hisi.
    pose proof (read_digits_uint "" _ c rest Hnil Hzero Hc) as Hdigits.
    cbn [String.append] in Hdigits. rewrite Hisi, Hz in Hdigits.
    unfold read_number.
    destruct (Pos.to_uint p); try congruence; try (now destruct (Hzero u));
      exact Hdigits.
  - pose proof (DecimalPos.Unsigned.to_uint_nonnil p) as Hnil.
    pose proof (to_uint_no_leading_zero p) as Hzero.
    unfold NilZero.string_of_int, NilZero.string_of_uint.
    rewrite string_of_uint_nonnil by assumption.
    cbn [NilEmpty.string_of_int] in Hisi.
    pose proof (read_digits_uint "-" _ c rest Hnil Hzero Hc) as Hdigits.
    cbn [String.append] in Hdigits. rewrite Hisi, Hz in Hdigits.
    unfold read_number. cbn [String.append Ascii.eqb Bool.eqb].
    exact Hdigits.
Qed.

Lemma string_app_assoc (s1 s2 s3 : string) : ((s1 ++ s2) ++ s3 = s1 ++ (s2 ++ s3))%string.
Proof. induction s1 as [|c s1 IH]; cbn; [reflexivity|now rewrite IH]. Qed.

Lemma string_app_length (s1 s2 : string) :
  String.length (s1 ++ s2) = (String.length s1 + String.length s2)%nat.
Proof. induction s1 as [|c s1 IH]; cbn; [reflexivity|now rewrite IH]. Qed.

Lemma read_value_dquote (fuel : nat) (s : string) :
  read_value (S fuel) (String dquote s) =
    match read_string InString s with
    | Some (str, rest) => Some (JString str, rest)
    | None => None
    end.
Proof. reflexivity. Qed.

Lemma read_value_string (fuel : nat) (s rest : string) :
  plain s = true ->
  read_value (S fuel) (String dquote (s ++ String dquote rest)) = Some (JString s, rest).
Proof. intros Hs. now rewrite read_value_dquote, read_string_plain. Qed.

(** A numeral begins with a digit or with the minus sign. *)
Lemma Itoa_head (z : Z) :
  exists a s, strconv_Itoa z = String a s /\ (is_digit a = true \/ a = "-"%char).
Proof.
  unfold strconv_Itoa. destruct z as [|p|p]; cbn [Z.to_int].
  - exists "0"%char, "". split; [reflexivity|left; reflexivity].
  - pose proof (DecimalPos.Unsigned.to_uint_nonnil p) as Hnil.
    unfold NilZero.string_of_int, NilZero.string_of_uint.
    destruct (Pos.to_uint p); try congruence;
      eexists _, _; (split; [reflexivity|left; reflexivity]).
  - eexists _, _. split; [reflexivity|right; reflexivity].
Qed.

Lemma skip_ws_Itoa (z : Z) (rest : string) :
  skip_ws (strconv_Itoa z ++ rest) = (strconv_Itoa z ++ rest)%string.
Proof.
  destruct (Itoa_head z) as [a [s [-> Ha]]]. cbn [String.append skip_ws].
  destruct Ha as [Ha| ->]; [|reflexivity].
  destruct a as [[] [] [] [] [] [] [] []]; try discriminate Ha; reflexivity.
Qed.

Lemma read_value_number (fuel : nat) (z : Z) (c : ascii) (rest : string) :
  is_digit c = false ->
  read_value (S fuel) (strconv_Itoa z ++ String c rest) = Some (JNumber z, String c rest).
Proof.
  intros Hc. pose proof (read_number_Itoa z c rest Hc) as Hnum.
  destruct (Itoa_head z) as [a [s [Hz Ha]]]. rewrite Hz in Hnum |- *.
  cbn [String.append] in Hnum |- *.
  assert (read_value (S fuel) (String a (s ++ String c rest)) =
          match read_number (String a (s ++ String c rest)) with
          | Some (z, rest) => Some (JNumber z, rest)
          | None => None
          end) as ->; [|now rewrite Hnum].
  destruct Ha as [Ha| ->]; [|reflexivity].
  destruct a as [[] [] [] [] [] [] [] []]; try discriminate Ha; reflexivity.
Qed.

Lemma read_value_object (fuel : nat) (s : string) :
  read_value (S fuel) (String "{" s) =
    match strip_literal "}" (skip_ws s) with
    | Some rest => Some (JObject [], rest)
    | None =>
        match read_members fuel (skip_ws s) with
        | Some (l, rest) => Some (JObject l, rest)
        | None => None
        end
    end.
Proof. reflexivity. Qed.

Lemma read_value_array (fuel : nat) (s : string) :
  read_value (S fuel) (String "[" s) =
    match strip_literal "]" (skip_ws s) with
    | Some rest => Some (JArray [], rest)
    | None =>
        match read_elements fuel (skip_ws s) with
        | Some (l, rest) => Some (JArray l, rest)
        | None => None
        end
    end.
Proof. reflexivity. Qed.

Lemma read_entry (entry : string * Z) (fuel : nat) (rest : string) :
  plain entry.1 = true ->
  read_value (S (S (S (S fuel)))) (skip_ws (metadata_text entry ++ rest))
    = Some (metadata_element entry, rest).
Proof.
  intros Hplain. unfold metadata_text. rewrite !string_app_assoc. cbn.
  rewrite read_value_object. cbn.
  rewrite read_value_string by assumption. cbn.
  rewrite skip_ws_Itoa, read_value_number by reflexivity. cbn.
  reflexivity.
Qed.

Lemma read_elements_unfold (fuel : nat) (s : string) :
  read_elements (S fuel) s =
    match read_value fuel s with
    | Some (v, rest) =>
        match strip_literal "," (skip_ws rest) with
        | Some rest' =>
            match read_elements fuel (skip_ws rest') with
            | Some (l, rest'') => Some (v :: l, rest'')
            | None => None
            end
        | None =>
            match strip_literal "]" (skip_ws rest) with
            | Some rest' => Some ([v], rest')
            | None => None
            end
        end
    | None => None
    end.
Proof. reflexivity. Qed.

Lemma read_entries (entries : list (string * Z)) (entry : string * Z)
    (fuel : nat) (rest : string) :
  Forall (fun e => plain e.1 = true) (entry :: entries) ->
  read_elements (length entries + 5 + fuel)
    (skip_ws (strings_Join (map metadata_text (entry :: entries)) ", " ++ closing ++ rest))
    = Some (map metadata_element (entry :: entries), rest).
Proof.
  revert entry fuel. induction entries as [|next entries IH]; intros entry fuel Hplain.
  - inversion_clear Hplain as [|? ? Hentry _].
    cbn [length Nat.add map strings_Join]. rewrite read_elements_unfold.
    rewrite read_entry by assumption. cbn. reflexivity.
  - inversion_clear Hplain as [|? ? Hentry Hrest].
    cbn [length Nat.add]. rewrite read_elements_unfold.
    change (strings_Join (map metadata_text (entry :: next :: entries)) ", ")
      with (metadata_text entry ++ ", "
            ++ strings_Join (map metadata_text (next :: entries)) ", ")%string.
    rewrite !string_app_assoc.
    replace (length entries + 5 + fuel)%nat
      with (S (S (S (S (length entries + 1 + fuel))))) by lia.
    rewrite read_entry by assumption.
    replace (S (S (S (S (length entries + 1 + fuel)))))
      with (length entries + 5 + fuel)%nat by lia.
    cbn [String.append skip_ws is_ws Ascii.eqb Bool.eqb orb strip_literal].
    rewrite (IH next fuel Hrest). reflexivity.
Qed.

Lemma metadata_text_length (entry : string * Z) :
  (1 <= String.length (metadata_text entry))%nat.
Proof. unfold metadata_text. cbn. lia. Qed.

Lemma strings_Join_length (elems : list string) (sep : string) :
  Forall (fun e => 1 <= String.length e)%nat elems ->
  (length elems <= String.length (strings_Join elems sep))%nat.
Proof.
  induction 1 as [|e elems He _ IH]; [cbn; lia|].
  destruct elems as [|e' elems]; [cbn; lia|].
  change (strings_Join (e :: e' :: elems) sep)
    with (e ++ sep ++ strings_Join (e' :: elems) sep)%string.
  rewrite !string_app_length. cbn [length] in IH |- *. lia.
Qed.

Lemma read_metadata_array (entries : list (string * Z)) (fuel : nat) (rest : string) :
  Forall (fun e => plain e.1 = true) entries ->
  read_value (length entries + 5 + fuel)
    (String "[" (strings_Join (map metadata_text entries) ", " ++ closing ++ rest))
    = Some (JArray (map metadata_element entries), rest).
Proof.
  intros Hplain. destruct entries as [|entry entries].
  - reflexivity.
  - pose proof (read_entries entries entry fuel rest Hplain) as Hread.
    cbn [length Nat.add]. rewrite read_value_array.
    assert (exists s, skip_ws (strings_Join (map metadata_text (entry :: entries)) ", "
                               ++ closing ++ rest) = String "{" s) as [s Hs].
    { destruct entries; cbn [map strings_Join]; unfold metadata_text at 1;
        rewrite !string_app_assoc; cbn; eexists; reflexivity. }
    rewrite Hs in Hread |- *. now rewrite Hread.
Qed.

Lemma read_members_unfold (fuel : nat) (s : string) :
  read_members (S fuel) (String dquote s) =
    match read_string InString s with
    | Some (key, rest) =>
        match strip_literal ":" (skip_ws rest) with
        | Some rest' =>
            match read_value fuel (skip_ws rest') with
            | Some (v, rest'') =>
                match strip_literal "," (skip_ws rest'') with
                | Some r =>
                    match read_members fuel (skip_ws r) with
                    | Some (l, r') => Some ((key, v) :: l, r')
                    | None => None
                    end
                | None =>
                    match strip_literal "}" (skip_ws rest'') with
                    | Some r => Some ([(key, v)], r)
                    | None => None
                    end
                end
            | None => None
            end
        | None => None
        end
    | None => None
    end.
Proof. reflexivity. Qed.

(** A member that is followed by another one. *)
Lemma read_member (fuel : nat) (key after_key after_colon after_value after_comma rest : string)
    (v : json) (l : list (string * json)) :
  plain key = true ->
  skip_ws after_key = String ":" after_colon ->
  read_value fuel (skip_ws after_colon) = Some (v, after_value) ->
  skip_ws after_value = String "," after_comma ->
  read_members fuel (skip_ws after_comma) = Some (l, rest) ->
  read_members (S fuel) (String dquote (key ++ String dquote after_key))
    = Some ((key, v) :: l, rest).
Proof.
  intros Hkey Hcolon Hvalue Hcomma Hnext.
  rewrite read_members_unfold, read_string_plain by assumption.
  rewrite Hcolon. cbn [strip_literal Ascii.eqb Bool.eqb].
  rewrite Hvalue, Hcomma. cbn [strip_literal Ascii.eqb Bool.eqb].
  rewrite Hnext. reflexivity.
Qed.

(** The last member of an object. *)
Lemma read_last_member (fuel : nat) (key after_key after_colon after_value rest : string)
    (v : json) :
  plain key = true ->
  skip_ws after_key = String ":" after_colon ->
  read_value fuel (skip_ws after_colon) = Some (v, after_value) ->
  skip_ws after_value = String "}" rest ->
  read_members (S fuel) (String dquote (key ++ String dquote after_key))
    = Some ([(key, v)], rest).
Proof.
  intros Hkey Hcolon Hvalue Hclose.
  rewrite read_members_unfold, read_string_plain by assumption.
  rewrite Hcolon. cbn [strip_literal Ascii.eqb Bool.eqb].
  rewrite Hvalue, Hclose. reflexivity.
Qed.

(** An object that has members. *)
Lemma read_object (fuel : nat) (s s1 rest : string) (l : list (string * json)) :
  skip_ws s = String dquote s1 ->
  read_members fuel (String dquote s1) = Some (l, rest) ->
  read_value (S fuel) (String "{" s) = Some (JObject l, rest).
Proof.
  intros Hs Hmembers. rewrite read_value_object, Hs, Hmembers. reflexivity.
Qed.

(** An array of one element. *)
Lemma read_singleton (fuel : nat) (s s1 after_value rest : string) (v : json) :
  skip_ws s = String "{" s1 ->
  read_value fuel (String "{" s1) = Some (v, after_value) ->
  skip_ws after_value = String "]" rest ->
  read_value (S (S fuel)) (String "[" s) = Some (JArray [v], rest).
Proof.
  intros Hs Hvalue Hclose.
  rewrite read_value_array, Hs. cbn [strip_literal Ascii.eqb Bool.eqb].
  rewrite read_elements_unfold, Hvalue, Hclose. reflexivity.
Qed.

Lemma read_value_false (fuel : nat) (rest : string) :
  read_value (S fuel) ("false" ++ rest) = Some (JBool false, rest).
Proof. reflexivity. Qed.

(** The document, member by member. *)
Lemma document_text_members (name version filename metadata_json : string) :
  document_text name version filename metadata_json =
    String "{" (indent 4 ++ quoted "releases" (": " ++ String "[" (indent 8 ++ String "{"
    (indent 12 ++ quoted "name" (": " ++ quoted name (String "," (indent 12 ++ quoted
    "version" (": " ++ quoted version (String "," (indent 12 ++ quoted "filename" (": " ++
    quoted filename (String "," (indent 12 ++ quoted "nolib" (": " ++ "false" ++ String
    "," (indent 12 ++ quoted "metadata" (": " ++ String "[" (metadata_json ++ closing ++
    document_tail))))))))))))))))).
Proof. reflexivity. Qed.

Ltac ws :=
  cbn [skip_ws is_ws Ascii.eqb Bool.eqb orb String.append indent spaces quoted Nat.add].

Ltac ws_in H :=
  cbn [skip_ws is_ws Ascii.eqb Bool.eqb orb String.append indent spaces quoted Nat.add]
    in H.

Lemma read_document (name version filename : string) (entries : list (string * Z))
    (fuel : nat) :
  plain name = true -> plain version = true -> plain filename = true ->
  Forall (fun e => plain e.1 = true) entries ->
  read_value (15 + (length entries + fuel))
    (skip_ws (document_text name version filename
                (strings_Join (map metadata_text entries) ", ")))
    = Some (release_document name version filename entries, String "010" "").
Proof.
  intros Hname Hversion Hfilename Hentries.
  rewrite document_text_members. ws.
  eapply read_object; [ws; reflexivity|].
  eapply (read_last_member _ "releases"); [reflexivity|ws; reflexivity| |].
  - ws. eapply read_singleton; [ws; reflexivity| |].
    + eapply read_object; [ws; reflexivity|].
      eapply (read_member _ "name"); [reflexivity|ws; reflexivity| | |].
      * ws. apply read_value_string, Hname.
      * ws. reflexivity.
      * ws. eapply (read_member _ "version"); [reflexivity|ws; reflexivity| | |].
        -- ws. apply read_value_string, Hversion.
        -- ws. reflexivity.
        -- ws. eapply (read_member _ "filename"); [reflexivity|ws; reflexivity| | |].
           ++ ws. apply read_value_string, Hfilename.
           ++ ws. reflexivity.
           ++ ws. eapply (read_member _ "nolib"); [reflexivity|ws; reflexivity| | |].
              ** ws. apply read_value_false.
              ** ws. reflexivity.
              ** ws. eapply (read_last_member _ "metadata");
                   [reflexivity|ws; reflexivity| |].
                 --- ws.
                     replace (S (S (S (S (S (length entries + fuel))))))
                       with (length entries + 5 + fuel)%nat by lia.
                     apply read_metadata_array, Hentries.
                 --- unfold document_tail. ws. reflexivity.
    + ws. reflexivity.
  - ws. reflexivity.
Qed.

(** ** What [gen_release_json] renders *)

(** The loop of [gen_release_json] renders one element for each patch,
    in the order of the patch list. *)
Lemma gen_metadata_spec (patch_list : list string) (metadata rendered : list string) :
  gen_metadata patch_list metadata = Ok rendered ->
  exists entries,
    Forall2 (fun patch entry =>
               patch_to_flavour patch = Ok entry.1 /\
               patch_to_interface patch = Ok entry.2) patch_list entries /\
    rendered = (metadata ++ map metadata_text entries)%list.
Proof.
  revert metadata. induction patch_list as [|patch patch_list IH]; intros metadata.
  - cbn. intros [= <-]. exists []. split; [constructor|now rewrite app_nil_r].
  - cbn [gen_metadata].
    destruct (patch_to_flavour patch) as [flavour|v] eqn:Hflavour; [|discriminate].
    destruct (patch_to_interface patch) as [iface|v] eqn:Hiface; [|discriminate].
    cbn [mbind result_bind]. rewrite release_flavour_json_text.
    intros [entries [Hall ->]]%IH.
    exists ((flavour, iface) :: entries). split.
    + constructor; [split; assumption|assumption].
    + now rewrite <- app_assoc.
Qed.

(** The text that [gen_release_json] returns. *)
Lemma gen_release_json_text (addon : Addon) (addon_output_path zip_output_filename doc : string) :
  gen_release_json addon addon_output_path zip_output_filename = Ok doc ->
  exists entries,
    Forall2 (fun patch entry =>
               patch_to_flavour patch = Ok entry.1 /\
               patch_to_interface patch = Ok entry.2) (PatchList addon) entries /\
    doc = document_text (Name addon) (Version addon) zip_output_filename
            (strings_Join (map metadata_text entries) ", ").
Proof.
  unfold gen_release_json.
  destruct (gen_metadata (PatchList addon) []) as [rendered|v] eqn:Hmeta; [|discriminate].
  cbn [mbind result_bind]. rewrite release_json_text. intros [= <-].
  destruct (gen_metadata_spec _ _ _ Hmeta) as [entries [Hall ->]].
  exists entries. split; [exact Hall|reflexivity].
Qed.

Lemma document_text_length (name version filename : string) (entries : list (string * Z)) :
  (15 + length entries <=
   String.length (document_text name version filename
                    (strings_Join (map metadata_text entries) ", ")))%nat.
Proof.
  unfold document_text. rewrite !string_app_length.
  assert (length entries
          <= String.length (strings_Join (map metadata_text entries) ", "))%nat as Hjoin.
  { rewrite <- (length_map metadata_text entries). apply strings_Join_length.
    induction entries; constructor; [apply metadata_text_length|assumption]. }
  assert (15 <= String.length before_name)%nat by (apply Nat.leb_le; reflexivity).
  lia.
Qed.

(** C6 (as the code has it): for an addon whose name and version, and
    an artifact file name, that are free of double quotes, backslashes
    and control characters, the text that [gen_release_json] returns
    is a JSON document with exactly one release entry, which carries
    the name, the version, the file name, [nolib = false], and a
    [metadata] array with exactly one [{flavor, interface}] element
    per patch, in the order of the patch list, each computed by
    [patch_to_flavour] and [patch_to_interface]; the array is empty
    (and present) for an empty patch list. *)
Theorem gen_release_json_document (addon : Addon)
    (addon_output_path zip_output_filename doc : string) :
  gen_release_json addon addon_output_path zip_output_filename = Ok doc ->
  plain (Name addon) = true -> plain (Version addon) = true ->
  plain zip_output_filename = true ->
  exists entries,
    Forall2 (fun patch entry =>
               patch_to_flavour patch = Ok entry.1 /\
               patch_to_interface patch = Ok entry.2) (PatchList addon) entries /\
    parse doc = Some (release_document (Name addon) (Version addon)
                        zip_output_filename entries) /\
    (PatchList addon = [] -> entries = []).
Proof.
  intros [entries [Hall ->]]%gen_release_json_text Hname Hversion Hfilename.
  exists entries. split; [exact Hall|]. split.
  - assert (Forall (fun e : string * Z => plain e.1 = true) entries) as Hplain.
    { clear -Hall. induction Hall as [|patch entry ? ? [Hflavour _] _ IH]; constructor.
      - exact (patch_to_flavour_plain _ _ Hflavour).
      - exact IH. }
    unfold parse.
    pose proof (document_text_length (Name addon) (Version addon) zip_output_filename
                  entries) as Hlen.
    set (doc := document_text _ _ _ _) in *.
    replace (String.length doc)
      with (15 + (length entries + (String.length doc - 15 - length entries)))%nat by lia.
    subst doc. rewrite read_document by assumption. reflexivity.
  - intros Hempty. rewrite Hempty in Hall. now inversion Hall.
Qed.

(** ** Fields that are not plain *)

Lemma prepend_length (p : string) (r : option (string * string)) (y rest : string) :
  prepend p r = Some (y, rest) ->
  exists y', r = Some (y', rest) /\ y = (p ++ y')%string.
Proof.
  destruct r as [[y' rest']|]; [|discriminate].
  cbn [prepend]. intros [= <- <-]. eauto.
Qed.

Lemma utf8_length (cp : N) : (String.length (utf8 cp) <= 3)%nat.
Proof.
  unfold utf8.
  destruct (cp <? 128)%N; [cbn; lia|].
  destruct (cp <? 2048)%N; [cbn; lia|].
  destruct (_ && _); cbn; lia.
Qed.

(** A string that ends at or before the closing quote of the field
    denotes at most as many bytes as the field has; an escape makes it
    denote fewer. *)
Lemma read_string_bound (x : string) (st : string_state) (y rest tail : string) :
  read_string st (x ++ field_end tail) = Some (y, rest) ->
  match st with
  | InString | InEscape => String.length y <= String.length x
  | InHex todo _ => String.length y + todo <= String.length x + 3
  end%nat.
Proof.
  revert st y. induction x as [|c x IH]; intros st y.
  - cbn [String.append field_end]. destruct st as [| |todo acc].
    + cbn. intros [= <- _]. cbn. lia.
    + cbn. discriminate.
    + cbn. destruct todo as [|[|todo]]; discriminate.
  - cbn [String.append read_string]. destruct st as [| |todo acc].
    + destruct (Ascii.eqb c dquote); [intros [= <- _]; cbn; lia|].
      destruct (Ascii.eqb c backslash).
      { intros H%IH. cbn [String.length]. lia. }
      destruct (plain_char c); [|discriminate].
      intros [y' [H%IH ->]]%prepend_length. cbn [String.append String.length]. lia.
    + destruct (simple_escape c).
      { intros [y' [H%IH ->]]%prepend_length. cbn [String.append String.length]. lia. }
      destruct (Ascii.eqb c "u"); [|discriminate].
      intros H%IH. cbn [String.length]. lia.
    + destruct (hex_digit c) as [h|]; [|discriminate].
      destruct todo as [|[|todo]]; [discriminate| |].
      * intros [y' [H%IH ->]]%prepend_length.
        rewrite string_app_length. pose proof (utf8_length (16 * acc + h)).
        cbn [String.length]. lia.
      * intros H%IH. cbn [String.length]. lia.
Qed.

(** So a string that denotes the field itself ends at the closing
    quote, and the field is plain. *)
Lemma read_string_exact (x y rest tail : string) :
  read_string InString (x ++ field_end tail) = Some (y, rest) ->
  (String.length x <= String.length y)%nat ->
  plain x = true /\ y = x /\ rest = String "," (String "010" tail).
Proof.
  revert y. induction x as [|c x IH]; intros y.
  - cbn. intros [= <- <-] _. auto.
  - cbn [String.append read_string].
    destruct (Ascii.eqb c dquote) eqn:Hquote; [intros [= <- _]; cbn; lia|].
    destruct (Ascii.eqb c backslash) eqn:Hback.
    { intros H%read_string_bound. cbn [String.length]. lia. }
    destruct (plain_char c) eqn:Hplain; [|discriminate].
    intros [y' [H ->]]%prepend_length. cbn [String.append String.length]. intros Hlen.
    destruct (IH y' H ltac:(lia)) as [Hx [-> ->]].
    cbn [plain]. rewrite Hplain, Hx. auto.
Qed.

(** What a successful read tells about the text. *)

Lemma strip_literal_char (c : ascii) (s rest : string) :
  strip_literal (String c "") s = Some rest -> s = String c rest.
Proof.
  destruct s as [|a s]; [discriminate|]. cbn [strip_literal].
  destruct (Ascii.eqb_spec c a) as [->|]; [|discriminate].
  now intros [= ->].
Qed.

Lemma strip_literal_same (c : ascii) (rest : string) :
  strip_literal (String c "") (String c rest) = Some rest.
Proof. cbn [strip_literal]. now rewrite Ascii.eqb_refl. Qed.

Lemma read_object_inv (fuel : nat) (s rest : string) (l : list (string * json)) :
  l <> [] ->
  read_value fuel (String "{" s) = Some (JObject l, rest) ->
  exists fuel', read_members fuel' (skip_ws s) = Some (l, rest).
Proof.
  intros Hl. destruct fuel as [|fuel]; [intros [=]|]. rewrite read_value_object.
  destruct (strip_literal "}" (skip_ws s)); [intros [= <- _]; congruence|].
  destruct (read_members fuel (skip_ws s)) as [[l' rest']|] eqn:Hread; [|intros [=]].
  intros [= <- <-]. eauto.
Qed.

Lemma read_array_inv (fuel : nat) (s rest : string) (l : list json) :
  l <> [] ->
  read_value fuel (String "[" s) = Some (JArray l, rest) ->
  exists fuel', read_elements fuel' (skip_ws s) = Some (l, rest).
Proof.
  intros Hl. destruct fuel as [|fuel]; [intros [=]|]. rewrite read_value_array.
  destruct (strip_literal "]" (skip_ws s)); [intros [= <- _]; congruence|].
  destruct (read_elements fuel (skip_ws s)) as [[l' rest']|] eqn:Hread; [|intros [=]].
  intros [= <- <-]. eauto.
Qed.

Lemma read_elements_inv (fuel : nat) (s rest : string) (v : json) (l : list json) :
  read_elements fuel s = Some (v :: l, rest) ->
  exists fuel' after, read_value fuel' s = Some (v, after).
Proof.
  destruct fuel as [|fuel]; [intros [=]|]. rewrite read_elements_unfold.
  destruct (read_value fuel s) as [[v' after]|] eqn:Hread; [|intros [=]].
  destruct (strip_literal "," (skip_ws after)).
  - destruct (read_elements fuel _) as [[l' rest']|]; [|intros [=]].
    intros [= <- _ _]. eauto.
  - destruct (strip_literal "]" (skip_ws after)); [|intros [=]].
    intros [= <- _ _]. eauto.
Qed.

(** The first member of an object and, when there are more members,
    the reading of the rest. *)
Lemma read_members_inv (fuel : nat) (key after_key after_colon rest : string)
    (k : string) (v : json) (l : list (string * json)) :
  plain key = true ->
  skip_ws after_key = String ":" after_colon ->
  read_members fuel (String dquote (key ++ String dquote after_key))
    = Some ((k, v) :: l, rest) ->
  exists fuel' after_value,
    read_value fuel' (skip_ws after_colon) = Some (v, after_value) /\
    (l <> [] ->
     exists after_comma,
       skip_ws after_value = String "," after_comma /\
       read_members fuel' (skip_ws after_comma) = Some (l, rest)).
Proof.
  intros Hkey Hcolon. destruct fuel as [|fuel]; [intros [=]|].
  rewrite read_members_unfold, read_string_plain by assumption.
  rewrite Hcolon, strip_literal_same.
  destruct (read_value fuel (skip_ws after_colon)) as [[v' after_value]|] eqn:Hvalue;
    [|intros [=]].
  destruct (strip_literal "," (skip_ws after_value)) as [after_comma|] eqn:Hcomma.
  - apply strip_literal_char in Hcomma.
    destruct (read_members fuel (skip_ws after_comma)) as [[l' rest']|] eqn:Hnext;
      [|intros [=]].
    intros [= _ <- <- <-]. exists fuel, after_value. split; [exact Hvalue|].
    intros _. eauto.
  - destruct (strip_literal "}" (skip_ws after_value)); [|intros [=]].
    intros [= _ <- <- _]. exists fuel, after_value. split; [exact Hvalue|]. congruence.
Qed.

Lemma read_field_inv (fuel : nat) (x after tail : string) :
  read_value fuel (String dquote (x ++ field_end tail)) = Some (JString x, after) ->
  plain x = true /\ after = String "," (String "010" tail).
Proof.
  destruct fuel as [|fuel]; [discriminate|]. rewrite read_value_dquote.
  destruct (read_string InString (x ++ field_end tail)) as [[y rest]|] eqn:Hread;
    [|discriminate].
  intros [= -> ->].
  destruct (read_string_exact _ _ _ _ Hread ltac:(lia)) as [Hplain [_ ->]]. auto.
Qed.

(** When the rendered text reads as the document of [name], [version]
    and [filename], these three are plain. *)
Lemma parse_fields_plain (name version filename metadata_json : string)
    (entries : list (string * Z)) :
  parse (document_text name version filename metadata_json)
    = Some (release_document name version filename entries) ->
  plain name = true /\ plain version = true /\ plain filename = true.
Proof.
  unfold parse. rewrite document_text_members. ws.
  destruct (read_value _ _) as [[v rest]|] eqn:Hdoc; [|discriminate].
  destruct (skip_ws rest); [|discriminate]. intros [= ->].
  unfold release_document in Hdoc.
  apply read_object_inv in Hdoc as [f1 Hreleases]; [|discriminate].
  ws_in Hreleases.
  eapply (read_members_inv _ "releases") in Hreleases; [|reflexivity|ws; reflexivity].
  destruct Hreleases as [f2 [after_releases [Harray _]]].
  ws_in Harray.
  apply read_array_inv in Harray as [f3 Helements]; [|discriminate].
  apply read_elements_inv in Helements as [f4 [after_entry Hentry]].
  ws_in Hentry.
  apply read_object_inv in Hentry as [f5 Hmembers]; [|discriminate].
  ws_in Hmembers.
  eapply (read_members_inv _ "name") in Hmembers; [|reflexivity|ws; reflexivity].
  destruct Hmembers as [f6 [after_name [Hname Hmembers]]].
  ws_in Hname. change (is_ws dquote) with false in Hname. cbv iota in Hname.
  eapply (read_field_inv _ name) in Hname. destruct Hname as [Hname ->].
  destruct (Hmembers ltac:(discriminate)) as [after_comma [Hcomma Hnext]].
  clear Hmembers. ws_in Hcomma. injection Hcomma as <-. ws_in Hnext.
  eapply (read_members_inv _ "version") in Hnext; [|reflexivity|ws; reflexivity].
  destruct Hnext as [f7 [after_version [Hversion Hmembers]]].
  ws_in Hversion. change (is_ws dquote) with false in Hversion. cbv iota in Hversion.
  eapply (read_field_inv _ version) in Hversion. destruct Hversion as [Hversion ->].
  destruct (Hmembers ltac:(discriminate)) as [after_comma [Hcomma Hnext]].
  clear Hmembers. ws_in Hcomma. injection Hcomma as <-. ws_in Hnext.
  eapply (read_members_inv _ "filename") in Hnext; [|reflexivity|ws; reflexivity].
  destruct Hnext as [f8 [after_filename [Hfilename _]]].
  ws_in Hfilename. change (is_ws dquote) with false in Hfilename. cbv iota in Hfilename.
  eapply (read_field_inv _ filename) in Hfilename. destruct Hfilename as [Hfilename _].
  auto.
Qed.

(** C10 (as the code has it): [gen_release_json] puts the name, the
    version and the file name into the template byte for byte, without
    escaping; so when one of them contains a double quote, a backslash
    or a control character, the text it returns never is the schema's
    document of these three values, whatever the metadata: it either
    is no JSON at all or it denotes other values. *)
Theorem gen_release_json_verbatim (addon : Addon)
    (addon_output_path zip_output_filename doc : string) :
  gen_release_json addon addon_output_path zip_output_filename = Ok doc ->
  (exists metadata_json,
     doc = before_name ++ Name addon ++ before_version ++ Version addon
           ++ before_filename ++ zip_output_filename ++ before_metadata
           ++ metadata_json ++ after_metadata) /\
  (plain (Name addon) = false \/ plain (Version addon) = false \/
   plain zip_output_filename = false ->
   forall entries,
     parse doc <> Some (release_document (Name addon) (Version addon)
                          zip_output_filename entries)).
Proof.
  intros [rendered [_ ->]]%gen_release_json_text. split.
  - eexists. reflexivity.
  - intros Hmeta entries Hparse.
    destruct (parse_fields_plain _ _ _ _ _ Hparse) as [Hname [Hversion Hfilename]].
    destruct Hmeta as [H|[H|H]]; congruence.
Qed.

Lemma gen_release_json_document_witness :
  exists doc,
    gen_release_json Demo.elvui "/srv/mirror/elvui" "elvui--13.33.zip" = Ok doc /\
    parse doc = Some (release_document "ElvUI" "13.33" "elvui--13.33.zip"
                        [("mainline", 100100)]).
Proof.
  destruct (gen_release_json Demo.elvui "/srv/mirror/elvui" "elvui--13.33.zip")
    as [doc|v] eqn:Hdoc; [|vm_compute in Hdoc; discriminate].
  exists doc. split; [reflexivity|].
  destruct (gen_release_json_document _ _ _ _ Hdoc eq_refl eq_refl eq_refl)
    as [entries [Hall [Hparse _]]].
  inversion Hall as [|patch [flavour iface] ? ? [Hflavour Hiface] Hnil]; subst.
  inversion Hnil; subst.
  vm_compute in Hflavour, Hiface.
  injection Hflavour as <-. injection Hiface as <-. exact Hparse.
Defined.

(** C6 as stated fails for a name with a double quote in it: the text
    rendered for the addon [Demo.quoting] is no JSON document. *)
Lemma gen_release_json_quote_in_name :
  match gen_release_json Demo.quoting "/srv/mirror/elvui" "elvui--13.33.zip" with
  | Ok doc => parse doc = None
  | Panicked _ => False
  end.
Proof. vm_compute. reflexivity. Qed.

Lemma gen_release_json_verbatim_witness :
  match gen_release_json Demo.quoting "/srv/mirror/elvui" "elvui--13.33.zip" with
  | Ok doc =>
      forall entries,
        parse doc <> Some (release_document (Name Demo.quoting) "13.33"
                             "elvui--13.33.zip" entries)
  | Panicked _ => False
  end.
Proof.
  destruct (gen_release_json Demo.quoting "/srv/mirror/elvui" "elvui--13.33.zip")
    as [doc|v] eqn:Hdoc; [|vm_compute in Hdoc; discriminate].
  apply (gen_release_json_verbatim _ _ _ _ Hdoc). left. reflexivity.
Defined.

(** C10 as stated fails for a name that is a well-formed escape: the
    name of two backslashes contains a JSON metacharacter, and the text
    rendered for it is a well-formed document of the schema, whose
    name is one backslash. *)
Lemma gen_release_json_escaped_backslash :
  plain (Name Demo.backslashed) = false /\
  match gen_release_json Demo.backslashed "/srv/mirror/elvui" "elvui--13.33.zip" with
  | Ok doc =>
      parse doc = Some (release_document (String backslash "") "13.33"
                          "elvui--13.33.zip" [("mainline", 100100)])
  | Panicked _ => False
  end.
Proof. vm_compute. split; reflexivity. Qed.

(** * Further properties of [main.go] *)

(** ** Version naming and metadata rendering, together *)

Lemma strings_Cut_Some (s before after : string) :
  strings_Cut s "." = Some (before, after) -> s = before ++ "." ++ after.
Proof.
  revert before. induction s as [|c s IH]; intros before; [discriminate|].
  cbn [strings_Cut String.prefix]. destruct (ascii_dec "." c) as [<-|Hc].
  - rewrite prefix_empty. cbn [String.length substring]. intros [= <- <-].
    replace (S (String.length s)) with (String.length s + 1)%nat by lia.
    now rewrite substring_all.
  - destruct (strings_Cut s ".") as [[b a]|]; [|discriminate].
    intros [= <- <-]. now rewrite (IH b eq_refl).
Qed.

Lemma strconv_Atoi_empty : strconv_Atoi "" = inl (NumError "Atoi" "" ErrSyntax).
Proof. reflexivity. Qed.

(** What [patch_to_interface] has read when it returns: a first
    component [a] and a second one [b], both of which [strconv.Atoi]
    accepts, [patch] being [a.tail] and [b] the part of [tail] before
    its first dot. *)
Lemma patch_to_interface_Ok (patch : string) (n : Z) :
  patch_to_interface patch = Ok n ->
  exists a tail b major minor,
    patch = a ++ "." ++ tail /\
    b = match strings_Cut tail "." with Some (b, _) => b | None => tail end /\
    strconv_Atoi a = inr major /\ strconv_Atoi b = inr minor /\
    n = wrap_int (10000 * major + 100 * minor).
Proof.
  unfold patch_to_interface. cbn [strings_SplitN].
  destruct (strings_Cut patch ".") as [[a tail]|] eqn:Hcut; [|discriminate].
  apply strings_Cut_Some in Hcut.
  set (b := match strings_Cut tail "." with Some (b, _) => b | None => tail end).
  replace (nth 1 _ "") with b by (subst b; now destruct (strings_Cut tail ".") as [[]|]).
  replace (1 <? length _)%nat with true by now destruct (strings_Cut tail ".") as [[]|].
  cbn [ensure mbind result_bind nth].
  destruct (strconv_Atoi a) as [e|major] eqn:Ha; [discriminate|].
  destruct (strconv_Atoi b) as [e|minor] eqn:Hb; [discriminate|].
  cbn. rewrite wrap_int_add. intros [= <-].
  exists a, tail, b, major, minor. auto.
Qed.

(** A patch that [patch_to_interface] accepts has a non-empty first
    component and a dot after it. *)
Lemma patch_to_interface_long (patch : string) (n : Z) :
  patch_to_interface patch = Ok n -> (2 <= String.length patch)%nat.
Proof.
  intros (a & tail & b & major & minor & -> & _ & Ha & _)%patch_to_interface_Ok.
  destruct a as [|c a]; [rewrite strconv_Atoi_empty in Ha; discriminate|].
  cbn. destruct a; cbn; lia.
Qed.

Lemma patch_to_flavour_long (patch : string) :
  (2 <= String.length patch)%nat -> exists flavour, patch_to_flavour patch = Ok flavour.
Proof.
  intros Hlen%Nat.leb_le. unfold patch_to_flavour, slice_to.
  rewrite Hlen. cbn [mbind result_bind].
  destruct (flavour_table !! _); eauto.
Qed.

(** X1: a patch that [patch_to_interface] accepts is one that
    [patch_to_flavour] accepts as well: it has a non-empty first
    component and a dot, so the slice [patch[:2]] is within bounds. *)
Theorem patch_to_interface_accepts_flavour (patch : string) (n : Z) :
  patch_to_interface patch = Ok n ->
  (2 <= String.length patch)%nat /\ exists flavour, patch_to_flavour patch = Ok flavour.
Proof.
  intros Hlen%patch_to_interface_long. split; [exact Hlen|].
  exact (patch_to_flavour_long _ Hlen).
Qed.

Lemma patch_to_interface_accepts_flavour_witness :
  patch_to_interface "1.14.3" = Ok 11400 /\
  (2 <= String.length "1.14.3")%nat /\ exists flavour, patch_to_flavour "1.14.3" = Ok flavour.
Proof.
  split; [reflexivity|].
  apply (patch_to_interface_accepts_flavour "1.14.3" 11400). reflexivity.
Defined.

Lemma flavour_table_classic (prefix flavour : string) :
  flavour_table !! prefix = Some flavour ->
  (prefix = "1." /\ flavour = "classic") \/
  (prefix = "2." /\ flavour = "classic-tbc") \/
  (prefix = "3." /\ flavour = "classic-wotlk").
Proof.
  intros H.
  destruct (decide (prefix = "1.")) as [->|H1]; [left; split; [reflexivity|]|].
  { vm_compute in H. congruence. }
  destruct (decide (prefix = "2.")) as [->|H2]; [right; left; split; [reflexivity|]|].
  { vm_compute in H. congruence. }
  destruct (decide (prefix = "3.")) as [->|H3]; [right; right; split; [reflexivity|]|].
  { vm_compute in H. congruence. }
  rewrite flavour_table_other in H by assumption. discriminate.
Qed.

Lemma parse_digits_bounds (s : string) (n un : Z) :
  parse_digits s n = inr un -> 0 <= n -> 0 <= un.
Proof.
  revert n. induction s as [|c s IH]; intros n; cbn [parse_digits].
  - intros [= <-]. auto.
  - unfold digit_of.
    destruct ((48 <=? nat_of_ascii c) && (nat_of_ascii c <=? 57))%nat eqn:Hd; [|discriminate].
    apply andb_true_iff in Hd as [Hlo%Nat.leb_le _].
    destruct (2 ^ 64 <=? _); [discriminate|]. intros H Hn. apply (IH _ H). lia.
Qed.

(** [strconv.Atoi] returns values of the type [int]. *)
Lemma strconv_Atoi_range (s : string) (z : Z) :
  strconv_Atoi s = inr z -> - 2 ^ 63 <= z < 2 ^ 63.
Proof.
  assert (forall (neg : bool) digits,
    match parse_digits digits 0 with
    | inl e => inl (NumError "Atoi" s e)
    | inr un =>
        if negb neg && (2 ^ 63 <=? un) then inl (NumError "Atoi" s ErrRange)
        else if neg && (2 ^ 63 <? un) then inl (NumError "Atoi" s ErrRange)
        else inr (if neg then - un else un)
    end = inr z -> - 2 ^ 63 <= z < 2 ^ 63) as Hunsigned.
  { intros neg digits H.
    destruct (parse_digits digits 0) as [e|un] eqn:Hun; [discriminate|].
    apply parse_digits_bounds in Hun; [|lia].
    destruct neg; cbn [negb andb] in H.
    - destruct (Z.ltb_spec (2 ^ 63) un); [discriminate|]. injection H as <-. lia.
    - destruct (Z.leb_spec (2 ^ 63) un); [discriminate|]. injection H as <-. lia. }
  unfold strconv_Atoi. intros H.
  destruct s as [|[[] [] [] [] [] [] [] []] s'];
    cbv beta zeta iota in H; try discriminate;
    try exact (Hunsigned false _ H);
    (destruct s'; [discriminate|]);
    first [exact (Hunsigned false _ H)|exact (Hunsigned true _ H)].
Qed.

(** X2: the flavour and the interface number of a patch agree on the
    major version: when [patch_to_flavour] answers classic,
    classic-tbc or classic-wotlk and [patch_to_interface] returns,
    the first component of the patch, which [patch_to_interface]
    parses as the major version, is 1, 2 or 3 respectively; so the
    interface number is [10000*major + 100*minor] with that major
    version and the minor version parsed from the second component,
    and it lies in the band of that major version when the minor
    version is below 100. *)
Theorem flavour_fixes_major (patch flavour : string) (n major : Z) :
  patch_to_flavour patch = Ok flavour ->
  patch_to_interface patch = Ok n ->
  In (flavour, major) [("classic", 1); ("classic-tbc", 2); ("classic-wotlk", 3)] ->
  let bits := strings_SplitN patch "." 3 in
  strconv_Atoi (nth 0 bits "") = inr major /\
  exists minor,
    strconv_Atoi (nth 1 bits "") = inr minor /\
    n = wrap_int (10000 * major + 100 * minor) /\
    (0 <= minor < 100 -> 10000 * major <= n < 10000 * (major + 1)).
Proof.
  intros Hflavour Hiface Hin.
  assert (exists rest,
            patch = String (ascii_of_nat (48 + Z.to_nat major)) (String "." rest))
    as [rest ->].
  { unfold patch_to_flavour, slice_to in Hflavour.
    destruct patch as [|c1 [|c2 rest]]; try discriminate.
    fold (slice_to (String c1 (String c2 rest)) 2) in Hflavour.
    rewrite slice_to_2 in Hflavour. cbn [mbind result_bind] in Hflavour.
    destruct (flavour_table !! _) as [entry|] eqn:Hentry.
    - injection Hflavour as ->. exists rest.
      destruct (flavour_table_classic _ _ Hentry) as [[[= -> ->] ->]|[[[= -> ->] ->]|[[= -> ->] ->]]];
        destruct Hin as [[= <-]|[[= <-]|[[= <-]|[]]]]; reflexivity.
    - injection Hflavour as <-.
      destruct Hin as [[=]|[[=]|[[=]|[]]]]. }
  set (digit := ascii_of_nat (48 + Z.to_nat major)) in *.
  assert (strings_Cut (String digit (String "." rest)) "." = Some (String digit "", rest)
          /\ strconv_Atoi (String digit "") = inr major /\ 1 <= major <= 3)
    as [Hcut [Hmajor Hband]].
  { destruct Hin as [[= _ <-]|[[= _ <-]|[[= _ <-]|[]]]];
      (split; [apply (strings_Cut_dot (String _ "") rest); reflexivity|];
       split; [reflexivity|lia]). }
  unfold patch_to_interface in Hiface. cbv zeta.
  cbn [strings_SplitN] in Hiface |- *. rewrite Hcut in Hiface |- *.
  set (b := match strings_Cut rest "." with Some (b, _) => b | None => rest end).
  replace (nth 1 _ "") with b in Hiface |- *
    by (subst b; now destruct (strings_Cut rest ".") as [[]|]).
  replace (1 <? length _)%nat with true in Hiface
    by now destruct (strings_Cut rest ".") as [[]|].
  cbn [ensure mbind result_bind nth] in Hiface |- *. rewrite Hmajor in Hiface.
  split; [exact Hmajor|].
  destruct (strconv_Atoi b) as [e|minor] eqn:Hb; [discriminate|].
  cbn in Hiface. rewrite wrap_int_add in Hiface. injection Hiface as <-.
  exists minor. split; [reflexivity|]. split; [reflexivity|].
  intros Hminor. rewrite wrap_int_small; lia.
Qed.

Lemma flavour_fixes_major_witness :
  strconv_Atoi "1" = inr 1 /\
  exists minor,
    strconv_Atoi "14" = inr minor /\
    11400 = wrap_int (10000 * 1 + 100 * minor) /\
    (0 <= minor < 100 -> 10000 * 1 <= 11400 < 10000 * (1 + 1)).
Proof.
  apply (flavour_fixes_major "1.14.3" "classic" 11400 1); [reflexivity|reflexivity|].
  left. reflexivity.
Defined.

(** The loop of [gen_release_json] walks over the patches that
    [patch_to_interface] accepts, rendering an element for each. *)
Lemma gen_metadata_app (before : list string) :
  Forall (fun p => exists n, patch_to_interface p = Ok n) before ->
  exists rendered, forall patch_list metadata,
    gen_metadata (before ++ patch_list) metadata =
    gen_metadata patch_list (metadata ++ rendered).
Proof.
  induction 1 as [|patch before [n Hn] _ [rendered IH]].
  - exists []. intros patch_list metadata. now rewrite app_nil_r.
  - destruct (patch_to_flavour_long patch (patch_to_interface_long _ _ Hn))
      as [flavour Hflavour].
    exists (fmt_Sprintf release_flavour_json [ArgS flavour; ArgD n] :: rendered).
    intros patch_list metadata. cbn [app gen_metadata].
    rewrite Hflavour, Hn. cbn [mbind result_bind].
    rewrite IH, <- app_assoc. reflexivity.
Qed.

(** X3: [gen_release_json] returns a document exactly when
    [patch_to_interface] accepts every patch of the addon; the name,
    the version and the file names play no part in that. *)
Theorem gen_release_json_returns (addon : Addon)
    (addon_output_path zip_output_filename : string) :
  (exists doc, gen_release_json addon addon_output_path zip_output_filename = Ok doc) <->
  Forall (fun p => exists n, patch_to_interface p = Ok n) (PatchList addon).
Proof.
  split.
  - intros [doc [entries [Hall _]]%gen_release_json_text].
    induction Hall as [|patch entry ? ? [_ Hiface] _ IH]; constructor; eauto.
  - intros [rendered Hrendered]%gen_metadata_app.
    specialize (Hrendered [] []). rewrite app_nil_r in Hrendered.
    unfold gen_release_json. rewrite Hrendered. cbn. eauto.
Qed.

(** X4: [gen_release_json] panics at the first patch that is refused,
    whatever comes after it in the list: with Go's slice-bounds panic
    when that patch has fewer than two bytes, since the flavour is
    computed first, and with the panic of [patch_to_interface]
    otherwise. *)
Theorem gen_release_json_first_refused (addon : Addon)
    (addon_output_path zip_output_filename : string)
    (before : list string) (patch : string) (after : list string) :
  PatchList addon = (before ++ patch :: after)%list ->
  Forall (fun p => exists n, patch_to_interface p = Ok n) before ->
  ((String.length patch < 2)%nat ->
   gen_release_json addon addon_output_path zip_output_filename =
     Panicked (PanicSliceBounds 2 (String.length patch))) /\
  ((2 <= String.length patch)%nat ->
   forall v, patch_to_interface patch = Panicked v ->
   gen_release_json addon addon_output_path zip_output_filename = Panicked v).
Proof.
  intros Hlist [rendered Hrendered]%gen_metadata_app.
  unfold gen_release_json. rewrite Hlist, Hrendered. cbn [gen_metadata]. split.
  - intros Hshort. unfold patch_to_flavour, slice_to.
    destruct (Nat.leb_spec 2 (String.length patch)); [lia|reflexivity].
  - intros Hlong v Hv. unfold patch_to_flavour, slice_to.
    apply Nat.leb_le in Hlong. rewrite Hlong. cbn [mbind result_bind].
    destruct (flavour_table !! _); cbn [mbind result_bind]; now rewrite Hv.
Qed.

Lemma gen_release_json_first_refused_witness :
  gen_release_json
    {| Slug := "elvui"; Name := "ElvUI"; Url := ""; Version := "13.33";
       PatchList := ["10.1.0"; "1"; "x"] |} "/srv/mirror/elvui" "elvui--13.33.zip"
    = Panicked (PanicSliceBounds 2 1) /\
  gen_release_json
    {| Slug := "elvui"; Name := "ElvUI"; Url := ""; Version := "13.33";
       PatchList := ["10.1.0"; "10"; "x"] |} "/srv/mirror/elvui" "elvui--13.33.zip"
    = Panicked (PanicString "failed to parse game version: 10").
Proof.
  assert (Forall (fun p => exists n, patch_to_interface p = Ok n) ["10.1.0"]) as Hbefore
    by (constructor; [exists 100100; reflexivity|constructor]).
  split.
  - apply (proj1 (gen_release_json_first_refused
                    {| Slug := "elvui"; Name := "ElvUI"; Url := ""; Version := "13.33";
                       PatchList := ["10.1.0"; "1"; "x"] |} _ _ ["10.1.0"] "1" ["x"] eq_refl Hbefore)).
    simpl. lia.
  - apply (proj2 (gen_release_json_first_refused
                    {| Slug := "elvui"; Name := "ElvUI"; Url := ""; Version := "13.33";
                       PatchList := ["10.1.0"; "10"; "x"] |} _ _ ["10.1.0"] "10" ["x"] eq_refl Hbefore)).
    + simpl. lia.
    + reflexivity.
Defined.

(** X5: the flavours of a rendered document are among classic,
    classic-tbc, classic-wotlk and mainline: the document that
    [gen_release_json] returns is the template around the addon's
    fields and one element per patch, each with one of these four
    flavours. *)
Theorem gen_release_json_flavours (addon : Addon)
    (addon_output_path zip_output_filename doc : string) :
  gen_release_json addon addon_output_path zip_output_filename = Ok doc ->
  exists entries : list (string * Z),
    doc = document_text (Name addon) (Version addon) zip_output_filename
            (strings_Join (map metadata_text entries) ", ") /\
    length entries = length (PatchList addon) /\
    Forall (fun entry =>
              In entry.1 ["classic"; "classic-tbc"; "classic-wotlk"; "mainline"]) entries.
Proof.
  intros [entries [Hall ->]]%gen_release_json_text.
  exists entries. split; [reflexivity|]. split.
  - symmetry. exact (Forall2_length _ _ _ Hall).
  - clear -Hall. induction Hall as [|patch entry ? ? [Hflavour _] _ IH]; constructor;
      [|exact IH].
    unfold patch_to_flavour in Hflavour.
    destruct (slice_to patch 2) as [prefix|v]; [|discriminate].
    cbn [mbind result_bind] in Hflavour.
    destruct (flavour_table !! prefix) as [flavour|] eqn:Hentry.
    + injection Hflavour as <-.
      destruct (flavour_table_classic _ _ Hentry) as [[_ ->]|[[_ ->]|[_ ->]]]; cbn; auto.
    + injection Hflavour as <-. cbn. auto.
Qed.

Lemma gen_release_json_flavours_witness :
  exists doc entries,
    gen_release_json Demo.tukui "/srv/mirror/tukui" "tukui--20.37.zip" = Ok doc /\
    doc = document_text "Tukui" "20.37" "tukui--20.37.zip"
            (strings_Join (map metadata_text entries) ", ") /\
    length entries = 2%nat.
Proof.
  destruct (gen_release_json Demo.tukui "/srv/mirror/tukui" "tukui--20.37.zip")
    as [doc|v] eqn:Hdoc; [|vm_compute in Hdoc; discriminate].
  destruct (gen_release_json_flavours _ _ _ _ Hdoc) as [entries [Htext [Hlength _]]].
  exists doc, entries. auto.
Defined.

(** ** Paths *)

Lemma list_ascii_app (s1 s2 : string) :
  list_ascii_of_string (s1 ++ s2) = (list_ascii_of_string s1 ++ list_ascii_of_string s2)%list.
Proof. induction s1 as [|c s1 IH]; [reflexivity|]. cbn. now rewrite IH. Qed.

(** Walking from the end of a path over text without dot or slash. *)
Lemma ext_scan_plain (ext : string) (rpath : list ascii) (seen : string) :
  strings_Contains ext "." = false -> strings_Contains ext "/" = false ->
  ext_scan (rev (list_ascii_of_string ext) ++ rpath) seen = ext_scan rpath (ext ++ seen).
Proof.
  revert rpath seen. induction ext as [|c ext IH]; intros rpath seen; [reflexivity|].
  cbn [strings_Contains String.prefix]. rewrite !prefix_empty.
  intros [Hdot Hdots]%orb_false_elim [Hsep Hseps]%orb_false_elim.
  cbn [list_ascii_of_string rev]. rewrite <- app_assoc. cbn [app].
  rewrite (IH _ _ Hdots Hseps). cbn [ext_scan]. unfold is_separator.
  destruct (ascii_dec "/" c) as [<-|Hc1]; [discriminate|].
  destruct (ascii_dec "." c) as [<-|Hc2]; [discriminate|].
  apply Ascii.eqb_neq in Hc1, Hc2. rewrite Ascii.eqb_sym in Hc1, Hc2.
  rewrite Hc1, Hc2. reflexivity.
Qed.

Lemma string_app_empty (s : string) : s ++ "" = s.
Proof. induction s as [|c s IH]; [reflexivity|]. cbn. now rewrite IH. Qed.

(** [filepath.Ext] of a path that ends in a dot and an extension, and
    of a path whose last element has no dot. *)
Lemma filepath_Ext_suffix (stem ext : string) :
  strings_Contains ext "." = false -> strings_Contains ext "/" = false ->
  filepath_Ext (stem ++ "." ++ ext) = "." ++ ext.
Proof.
  intros Hdot Hsep. unfold filepath_Ext.
  rewrite list_ascii_app, rev_app_distr.
  change (list_ascii_of_string ("." ++ ext)) with ("."%char :: list_ascii_of_string ext).
  cbn [rev]. rewrite <- app_assoc, (ext_scan_plain _ _ _ Hdot Hsep).
  cbn. now rewrite string_app_empty.
Qed.

Lemma filepath_Ext_none (dir name : string) :
  strings_Contains name "." = false -> strings_Contains name "/" = false ->
  filepath_Ext name = "" /\ filepath_Ext (dir ++ "/" ++ name) = "".
Proof.
  intros Hdot Hsep. unfold filepath_Ext. split.
  - rewrite <- (app_nil_r (rev _)), (ext_scan_plain _ _ _ Hdot Hsep). reflexivity.
  - rewrite list_ascii_app, rev_app_distr.
    change (list_ascii_of_string ("/" ++ name)) with ("/"%char :: list_ascii_of_string name).
    cbn [rev]. rewrite <- app_assoc, (ext_scan_plain _ _ _ Hdot Hsep). reflexivity.
Qed.


Lemma no_separator (s : string) :
  strings_Contains s "/" = false ->
  Forall (fun c => is_separator c = false) (list_ascii_of_string s).
Proof.
  induction s as [|c s IH]; [constructor|].
  cbn [strings_Contains String.prefix]. rewrite prefix_empty.
  intros [Hsep Hseps]%orb_false_elim. constructor; [|exact (IH Hseps)].
  unfold is_separator. destruct (ascii_dec "/" c) as [<-|Hc]; [discriminate|].
  apply Ascii.eqb_neq. congruence.
Qed.

Lemma last_element_plain (name : string) (rpath : list ascii) (seen : string) :
  strings_Contains name "/" = false ->
  last_element (rev (list_ascii_of_string name) ++ rpath) seen
    = last_element rpath (name ++ seen).
Proof.
  revert rpath seen. induction name as [|c name IH]; intros rpath seen; [reflexivity|].
  intros Hsep. pose proof (no_separator _ Hsep) as Hc. inversion Hc as [|? ? Hc1 _]; subst.
  cbn [strings_Contains String.prefix] in Hsep. rewrite prefix_empty in Hsep.
  apply orb_false_elim in Hsep as [_ Hseps].
  cbn [list_ascii_of_string rev]. rewrite <- app_assoc. cbn [app].
  rewrite (IH _ _ Hseps). cbn [last_element]. now rewrite Hc1.
Qed.

Lemma strip_separators_plain (name : string) (rpath : list ascii) :
  name <> "" -> strings_Contains name "/" = false ->
  strip_separators (rev (list_ascii_of_string name) ++ rpath)
    = (rev (list_ascii_of_string name) ++ rpath)%list.
Proof.
  intros Hname Hsep.
  pose proof (no_separator _ Hsep) as Hplain. apply Forall_rev in Hplain.
  destruct (rev (list_ascii_of_string name)) as [|c rname] eqn:Hrev.
  { apply (f_equal (@rev ascii)) in Hrev. rewrite rev_involutive in Hrev.
    destruct name; [congruence|discriminate]. }
  inversion Hplain as [|? ? Hc _]; subst.
  cbn [app strip_separators]. now rewrite Hc.
Qed.

(** [filepath.Base] of a directory, a slash and a file name. *)
Lemma filepath_Base_file (dir name : string) :
  name <> "" -> strings_Contains name "/" = false ->
  filepath_Base (dir ++ "/" ++ name) = name.
Proof.
  intros Hname Hsep. unfold filepath_Base.
  destruct (dir ++ "/" ++ name) eqn:Hpath.
  { destruct dir; discriminate. }
  rewrite <- Hpath. clear Hpath.
  rewrite list_ascii_app, rev_app_distr.
  change (list_ascii_of_string ("/" ++ name)) with ("/"%char :: list_ascii_of_string name).
  cbn [rev]. rewrite <- app_assoc.
  rewrite (strip_separators_plain _ _ Hname Hsep), (last_element_plain _ _ _ Hsep).
  cbn. rewrite string_app_empty. destruct name; [congruence|reflexivity].
Qed.

Lemma strings_Contains_app (s1 s2 : string) (c : ascii) :
  strings_Contains s1 (String c "") = false -> strings_Contains s2 (String c "") = false ->
  strings_Contains (s1 ++ s2) (String c "") = false.
Proof.
  intros H1 H2. induction s1 as [|a s1 IH]; [exact H2|].
  cbn [strings_Contains String.prefix] in H1 |- *.
  change ((String a s1 ++ s2)%string) with (String a (s1 ++ s2)).
  cbn [strings_Contains String.prefix]. rewrite prefix_empty in *.
  apply orb_false_elim in H1 as [Ha Hs1]. rewrite Ha, (IH Hs1). reflexivity.
Qed.

(** ** Shell commands *)

Section MoreRunFacts.
Context {W : Type} (handle : forall X, Event X -> W -> X * W).
Context {lib : GoLib}.

Local Arguments fmt_Sprintf : simpl never.
Local Arguments String.append : simpl never.

(** X6: [run_all_cmd] runs its commands in order in [cwd] and stops at
    the first one that ends with a non-zero exit status: the commands
    after it are not run, and the panic names the command and carries
    what it wrote to its standard error, trimmed.  A run that returns
    has run every command, none ending with a non-zero exit status. *)
Theorem run_all_cmd_stops (command_list : list string) (cwd : string) (w : W) :
  let '(r, t, _) := run handle (run_all_cmd command_list cwd) w in
  match r with
  | Ok _ =>
      effects t = map (fun c => EShell c cwd) command_list /\
      forallb (fun o => negb (exit_failure o)) t = true
  | Panicked v =>
      exists before command after t' rr code,
        command_list = (before ++ command :: after)%list /\
        t = (t' ++ [Obs (Stderr (executing command cwd)) tt;
                    Obs (Run command cwd) rr])%list /\
        effects t' = map (fun c => EShell c cwd) before /\
        forallb (fun o => negb (exit_failure o)) t' = true /\
        run_err rr = Some (ExitError code) /\ code <> 0 /\
        v = PanicString (fmt_Sprintf "command '%s' failed: %s"
                           [ArgS command; ArgS (strings_TrimSpace (run_stderr rr))])
  end.
Proof.
  revert w. induction command_list as [|command rest IH]; intros w.
  - cbn. split; reflexivity.
  - rewrite run_all_cmd_cons.
    set (w1 := (handle _ (Stderr _) w).2).
    set (rr := (handle _ (Run command cwd) w1).1).
    set (w2 := (handle _ (Run command cwd) w1).2).
    destruct (_ =? 0) eqn:Hrc.
    + assert (exit_failure (Obs (Run command cwd) rr) = false) as Hclean.
      { cbn. destruct (run_err rr) as [[| |]|]; try reflexivity. now rewrite Hrc. }
      specialize (IH w2). destruct (run handle _ w2) as [[[[]|v] t] w3].
      * destruct IH as [Ht Hall]. cbn [app]. split.
        { rewrite effects_cons, effects_cons. cbn [effect_of map]. now rewrite Ht. }
        cbn [forallb]. rewrite Hclean, Hall. reflexivity.
      * destruct IH as (before & c & after & t' & rr' & code & -> & -> & Ht' & Hall & Hrr).
        exists (command :: before), c, after,
          (Obs (Stderr (executing command cwd)) tt :: Obs (Run command cwd) rr :: t'),
          rr', code.
        split; [reflexivity|]. split; [reflexivity|]. split.
        { rewrite effects_cons, effects_cons. cbn [effect_of map]. now rewrite Ht'. }
        split; [|exact Hrr]. cbn [forallb]. rewrite Hclean, Hall. reflexivity.
    + destruct (run_err rr) as [[| code |]|] eqn:Herr; try discriminate.
      exists [], command, rest, [], rr, code.
      apply Z.eqb_neq in Hrc. cbn [app map effects omap forallb].
      auto 10.
Qed.

(** X7: [fetch_addon_version] runs [git describe] once and never
    anything else.  It returns what the command printed, trimmed,
    unless the command ended with a non-zero exit status; then it
    returns the empty version when the command complained that there
    are no tags, whatever it printed, and panics with that complaint
    otherwise.  An error of [cmd.Run()] that is no exit status counts
    as success. *)
Theorem fetch_addon_version_outcomes (addon_output_dir : string) (w : W) :
  let command := "git describe --tags --abbrev=0" in
  let w1 := (handle _ (Stderr (executing command addon_output_dir)) w).2 in
  let rr := (handle _ (Run command addon_output_dir) w1).1 in
  let _stdout := strings_TrimSpace (run_stdout rr) in
  let _stderr := strings_TrimSpace (run_stderr rr) in
  run handle (fetch_addon_version addon_output_dir) w =
    (match run_err rr with
     | Some (ExitError code) =>
         if code =? 0 then Ok _stdout
         else if strings_Contains _stderr "fatal: No names found, cannot describe anything."
                 || strings_Contains _stderr "fatal: No tags can describe"
         then Ok ""
         else Panicked (PanicString ("failed to fetch latest tag: " ++ _stderr))
     | _ => Ok _stdout
     end,
     [Obs (Stderr (executing command addon_output_dir)) tt;
      Obs (Run command addon_output_dir) rr],
     (handle _ (Run command addon_output_dir) w1).2).
Proof.
  intros command w1 rr _stdout _stderr.
  unfold fetch_addon_version. rewrite run_bind, run_run_cmd.
  fold command w1 rr _stdout _stderr.
  destruct (run_err rr) as [[| code |]|]; try reflexivity.
  cbn [run]. destruct (code =? 0); [reflexivity|]. cbn [negb].
  destruct (_ || _); reflexivity.
Qed.

(** ** The catalog and the loop over it *)

(** X8: [TukuiMirror.fetch_addon_list] makes one request, for the
    catalog of the Tukui API, and nothing else to the world.  A
    transport error makes it panic; so does a status other than 200,
    the body then being closed unread; with status 200 the body is
    read and closed, and the outcome is that of reading and decoding
    it.  The body of a response is closed in every case. *)
Theorem fetch_addon_list_outcomes (w : W) :
  let url := "https://api.tukui.org/v1/addons" in
  let got := handle _ (HttpGet url) w in
  let '(r, t, _) := run handle TukuiMirror_fetch_addon_list w in
  effects t = [EFetch url] /\
  match got.1 with
  | inl err =>
      r = Panicked (PanicFailedWhile "fetching addon list" err) /\
      t = [Obs (HttpGet url) got.1]
  | inr resp =>
      let read := handle _ (ReadAll (Body resp)) got.2 in
      if StatusCode resp =? 200 then
        t = [Obs (HttpGet url) got.1; Obs (ReadAll (Body resp)) read.1;
             Obs (Close (Body resp)) tt] /\
        r = (body_bytes ← panicOnErr read.1 "reading response body into a byte array";
             panicOnErr (json_Unmarshal body_bytes)
               "deserialising response bytes into a list of addon structs")
      else
        t = [Obs (HttpGet url) got.1; Obs (Close (Body resp)) tt] /\
        r = Panicked (PanicString "non-200 response fetching addon list")
  end.
Proof.
  intros url got. unfold TukuiMirror_fetch_addon_list. fold url.
  rewrite run_bind, run_trigger. fold got.
  destruct got as [[err|resp] w1]; cbn [fst snd];
    rewrite run_bind, run_lift; cbn [panicOnErr].
  - split; [reflexivity|]. split; reflexivity.
  - rewrite run_defer, run_bind, run_lift.
    destruct (StatusCode resp =? 200); cbn [ensure].
    + rewrite run_bind, run_trigger.
      destruct (handle _ (ReadAll (Body resp)) w1) as [read w2]. cbn [fst snd].
      rewrite run_bind, run_lift.
      destruct (panicOnErr read _) as [body_bytes|v]; cbn [mbind result_bind].
      * rewrite run_lift, run_trigger.
        destruct (handle _ (Close (Body resp)) w2) as [[] w3].
        split; [reflexivity|]. split; reflexivity.
      * rewrite run_trigger.
        destruct (handle _ (Close (Body resp)) w2) as [[] w3].
        split; [reflexivity|]. split; reflexivity.
    + rewrite run_trigger.
      destruct (handle _ (Close (Body resp)) w1) as [[] w2].
      split; [reflexivity|]. split; reflexivity.
Qed.

Lemma run_for_range_app {A} (body : A -> Prog unit) (before rest : list A)
    (w wb : W) (tb : list obs) :
  run handle (for_range before body) w = (Ok tt, tb, wb) ->
  run handle (for_range (before ++ rest) body) w =
    let '(r, t, w') := run handle (for_range rest body) wb in
    (r, (tb ++ t)%list, w').
Proof.
  revert w tb. induction before as [|x before IH]; intros w tb.
  - cbn. intros [= <- <-]. now destruct (run handle _ w) as [[r t] w'].
  - cbn [app for_range]. rewrite !run_bind.
    destruct (run handle (body x) w) as [[[[]|v] t1] w1]; [|discriminate].
    destruct (run handle (for_range before body) w1) as [[[[]|v] t2] w2] eqn:Hbefore;
      [|discriminate].
    intros [= <- <-]. rewrite (IH _ _ Hbefore).
    destruct (run handle (for_range rest body) w2) as [[r t] w'].
    now rewrite app_assoc.
Qed.

(** X9: the loop of [mirror] has no recovery: when the processing of
    an addon panics, the run ends with that panic, and the addons
    that come after it in the catalog are not processed. *)
Theorem mirror_stops_at_panic (app : IMirror) (script_path token : string)
    (before : list Addon) (addon : Addon) (after : list Addon)
    (w w0 wb w1 : W) (t0 tb t1 : list obs) (v : panic_value) :
  run handle (fetch_addon_list app) w = (Ok (before ++ addon :: after)%list, t0, w0) ->
  run handle (for_range before (mirror_addon app script_path token)) w0 = (Ok tt, tb, wb) ->
  run handle (mirror_addon app script_path token addon) wb = (Panicked v, t1, w1) ->
  run handle (mirror app script_path token) w = (Panicked v, (t0 ++ tb ++ t1)%list, w1).
Proof.
  intros Hlist Hbefore Haddon. unfold mirror.
  rewrite run_bind, Hlist, (run_for_range_app _ _ _ _ _ _ Hbefore).
  cbn [for_range]. rewrite run_bind, Haddon. reflexivity.
Qed.

(** X10: when the catalog cannot be had, [mirror] ends with the panic
    of [fetch_addon_list] and has done nothing else; when the catalog
    is empty, it returns and has done nothing else. *)
Theorem mirror_without_addons (app : IMirror) (script_path token : string)
    (w w0 : W) (t0 : list obs) :
  (forall v, run handle (fetch_addon_list app) w = (Panicked v, t0, w0) ->
     run handle (mirror app script_path token) w = (Panicked v, t0, w0)) /\
  (run handle (fetch_addon_list app) w = (Ok [], t0, w0) ->
     run handle (mirror app script_path token) w = (Ok tt, t0, w0)).
Proof.
  unfold mirror. split.
  - intros v Hlist. now rewrite run_bind, Hlist.
  - intros Hlist. rewrite run_bind, Hlist. cbn. now rewrite app_nil_r.
Qed.

(** X11: [main] asks for the working directory and then for the
    token, before anything else: when [os.Getwd] fails, or when the
    variable [GITHUB_TOKEN] is not set, it panics without having made
    a request or run a command.  A token that is set and empty is
    accepted. *)
Theorem main_needs_token (w : W) :
  let getwd := handle _ Getwd w in
  let env := handle _ (LookupEnv "GITHUB_TOKEN") getwd.2 in
  match getwd.1 with
  | inl err =>
      run handle main w =
        (Panicked (PanicFailedWhile "fetching the current working directory" err),
         [Obs Getwd getwd.1], getwd.2)
  | inr script_path =>
      if env.1.2 then
        run handle main w =
          let '(r, t, w') := run handle (mirror TukuiMirror script_path env.1.1) env.2 in
          (r, (Obs Getwd getwd.1 :: Obs (LookupEnv "GITHUB_TOKEN") env.1 :: t)%list, w')
      else
        run handle main w =
          (Panicked (PanicString "envvar GITHUB_TOKEN not set."),
           [Obs Getwd getwd.1; Obs (LookupEnv "GITHUB_TOKEN") env.1], env.2)
  end.
Proof.
  intros getwd env. unfold main. rewrite run_bind, run_trigger. fold getwd.
  destruct getwd as [[err|script_path] w1] eqn:Hgetwd; cbn [fst snd] in *;
    rewrite run_bind, run_lift; cbn [panicOnErr]; [reflexivity|].
  rewrite run_bind. unfold github_token. rewrite run_bind, run_trigger. fold env.
  destruct env as [[token present] w2]. cbn [fst snd].
  rewrite run_bind, run_lift. destruct present; cbn [ensure]; [|reflexivity].
  cbn [run app].
  destruct (run handle (mirror TukuiMirror script_path token) w2) as [[r t] w'].
  reflexivity.
Qed.

(** ** Acquiring and publishing *)

(** X12: all that [TukuiMirror.download_addon] does to the world is to
    request [addon.Url] and then to write the cache file, in that
    order and each at most once.  A file is written only at the cache
    path, with mode 0644 and with the bytes read from a response of
    status 200; the body of every response that came is closed; and
    the path returned is always the cache path. *)
Theorem download_addon_effects (addon : Addon) (output_path : string) (w : W) :
  let zip_output_path :=
    filepath_Join
      [output_path; fmt_Sprintf "%s--%s.zip" [ArgS (Slug addon); ArgS (Version addon)]] in
  let '(r, t, _) := run handle (download_addon TukuiMirror addon output_path) w in
  effects t `prefix_of` [EFetch (Url addon); EWrite zip_output_path] /\
  (forall path, r = Ok path ->
     path = zip_output_path /\
     (effects t = [] \/ effects t = [EFetch (Url addon); EWrite zip_output_path])) /\
  (forall file, In file (omap written_of t) ->
     exists resp zip_bytes,
       file = (zip_output_path, zip_bytes, perm_0644) /\
       omap response_of t = [resp] /\ StatusCode resp = 200 /\
       omap read_of t = [(Body resp, zip_bytes)]) /\
  omap closed_of t = map Body (omap response_of t).
Proof.
  intros zip_output_path.
  cbn [download_addon TukuiMirror]. unfold TukuiMirror_download_addon.
  fold zip_output_path. rewrite run_bind.
  unfold file_exists. rewrite run_bind, run_trigger.
  assert (forall (r : result string) (t : list obs),
            effects t = [] -> omap written_of t = [] ->
            omap response_of t = [] -> omap closed_of t = [] ->
            (forall path, r = Ok path -> path = zip_output_path) ->
            effects t `prefix_of` [EFetch (Url addon); EWrite zip_output_path] /\
            (forall path, r = Ok path ->
               path = zip_output_path /\
               (effects t = [] \/ effects t = [EFetch (Url addon); EWrite zip_output_path])) /\
            (forall file, In file (omap written_of t) ->
               exists resp zip_bytes,
                 file = (zip_output_path, zip_bytes, perm_0644) /\
                 omap response_of t = [resp] /\ StatusCode resp = 200 /\
                 omap read_of t = [(Body resp, zip_bytes)]) /\
            omap closed_of t = map Body (omap response_of t)) as Hcached.
  { intros r t -> -> -> -> Hpath. split; [apply prefix_nil|].
    split; [intros path Hr; split; [exact (Hpath _ Hr)|left; reflexivity]|].
    split; [intros file []|reflexivity]. }
  destruct (handle _ (Stat zip_output_path) w) as [[e|] w1]; cbn [fst snd];
    [destruct (is_ErrNotExist e) eqn:Hmissing|]; cbn [run app].
  2,3: apply Hcached; try reflexivity; now intros path [= <-].
  clear Hcached.
  unfold stderr. rewrite run_bind, run_trigger.
  destruct (handle _ (Stderr _) w1) as [[] w2]. cbn [fst snd].
  rewrite run_bind, run_trigger.
  destruct (handle _ (HttpGet (Url addon)) w2) as [[err|resp] w3]; cbn [fst snd];
    rewrite run_bind, run_lift; cbn [panicOnErr].
  { cbn. split; [apply prefix_cons, prefix_nil|].
    split; [discriminate|]. split; [intros file []|reflexivity]. }
  rewrite run_defer, run_bind, run_lift.
  destruct (StatusCode resp =? 200) eqn:Hstatus; cbn [ensure].
  2: { rewrite run_trigger. destruct (handle _ (Close (Body resp)) w3) as [[] w4]. cbn.
       split; [apply prefix_cons, prefix_nil|].
       split; [discriminate|]. split; [intros file []|reflexivity]. }
  apply Z.eqb_eq in Hstatus.
  rewrite run_bind, run_trigger.
  destruct (handle _ (ReadAll (Body resp)) w3) as [[err|zip_bytes] w4]; cbn [fst snd];
    rewrite run_bind, run_lift; cbn [panicOnErr].
  { rewrite run_trigger. destruct (handle _ (Close (Body resp)) w4) as [[] w5]. cbn.
    split; [apply prefix_cons, prefix_nil|].
    split; [discriminate|]. split; [intros file []|reflexivity]. }
  rewrite run_bind, run_trigger.
  destruct (handle _ (WriteFile zip_output_path zip_bytes perm_0644) w4) as [[err|] w5];
    cbn [fst snd]; rewrite run_bind, run_lift; cbn [panicOnErr_].
  - rewrite run_trigger. destruct (handle _ (Close (Body resp)) w5) as [[] w6]. cbn.
    split; [reflexivity|]. split; [discriminate|].
    split; [|reflexivity]. intros file [<-|[]]. exists resp, zip_bytes. auto.
  - rewrite run_bind, run_trigger.
    destruct (handle _ (Stderr _) w5) as [[] w6]. cbn [fst snd run app].
    rewrite run_trigger. destruct (handle _ (Close (Body resp)) w6) as [[] w7]. cbn.
    split; [reflexivity|].
    split; [intros path [= <-]; split; [reflexivity|right; reflexivity]|].
    split; [|reflexivity]. intros file [<-|[]]. exists resp, zip_bytes. auto.
Qed.

(** X13: the metadata document is rendered before anything is written
    to the mirror repository: when [gen_release_json] refuses the
    addon (one of its patches is refused), the update ends with that
    panic once the artifact has been acquired, and nothing is
    written, committed, tagged, pushed or released. *)
Theorem mirror_update_bad_patch (app : IMirror) (addon : Addon)
    (addon_output_dir token zip_output_path : string) (w w1 : W) (t : list obs)
    (v : panic_value) :
  run handle (download_addon app addon addon_output_dir) w = (Ok zip_output_path, t, w1) ->
  gen_release_json addon addon_output_dir (filepath_Base zip_output_path) = Panicked v ->
  run handle (mirror_update app addon addon_output_dir token) w = (Panicked v, t, w1).
Proof.
  intros Hacquired Hrefused. unfold mirror_update, publish_update.
  rewrite run_bind, Hacquired, run_bind, run_lift, Hrefused. now rewrite app_nil_r.
Qed.

(** X14: a run of [publish_update] that returns has written to
    [release.json] in the addon's directory, with mode 0644, the very
    text that [gen_release_json] renders for the base name of the
    artifact, which is also the name under which the artifact is
    uploaded, first of the two assets. *)
Theorem publish_update_document (addon : Addon)
    (addon_output_dir token zip_output_path : string) (w w1 : W) (t : list obs) :
  run handle (publish_update addon addon_output_dir token zip_output_path) w
    = (Ok tt, t, w1) ->
  let release_json_path := filepath_Join [addon_output_dir; "release.json"] in
  exists doc,
    gen_release_json addon addon_output_dir (filepath_Base zip_output_path) = Ok doc /\
    hd_error t = Some (Obs (WriteFile release_json_path doc perm_0644) None) /\
    effects t = publish_order addon addon_output_dir zip_output_path.
Proof.
  intros Hrun release_json_path.
  pose proof (publish_update_order handle addon addon_output_dir token zip_output_path w)
    as Horder.
  rewrite Hrun in Horder. destruct Horder as [_ [Hall _]].
  unfold publish_update in Hrun. rewrite run_bind, run_lift in Hrun.
  destruct (gen_release_json _ _ _) as [doc|v]; [|discriminate].
  exists doc. split; [reflexivity|]. split; [|exact (Hall tt eq_refl)].
  rewrite run_bind, run_write_release_json in Hrun. fold release_json_path in Hrun.
  destruct (handle _ (WriteFile release_json_path doc perm_0644) w) as [[err|] w2];
    cbn [fst snd] in Hrun; [discriminate|].
  destruct (run handle _ _) as [[r t2] w3] in Hrun.
  injection Hrun as _ <- _. reflexivity.
Qed.

(** X15: [create_tag_release] first creates the release, for the tag
    [addon.Version] of the repository [addon.Slug]; when that fails
    it panics and no asset is opened or uploaded.  The assets are
    then uploaded in the order of the list, each under its base name;
    a run that returns has uploaded them all. *)
Theorem create_tag_release_order (addon : Addon) (token : string)
    (asset_list : list string) (w : W) :
  let create := CreateRelease token "ogri-la" (Slug addon) (Version addon) "true" in
  let created := handle _ create w in
  let '(r, t, _) := run handle (create_tag_release addon token asset_list) w in
  let uploads := map (fun p => EUpload (filepath_Base p)) asset_list in
  hd_error t = Some (Obs create created.1) /\
  effects t `prefix_of` ERelease (Slug addon) (Version addon) :: uploads /\
  (forall u, r = Ok u -> effects t = ERelease (Slug addon) (Version addon) :: uploads) /\
  (forall err, created.1 = inl err ->
     r = Panicked (PanicFailedWhile "creating a Github release" err) /\
     t = [Obs create created.1]).
Proof.
  intros create created.
  pose proof (create_tag_release_effects handle addon token asset_list w) as Heffects.
  unfold create_tag_release in *. fold create in Heffects |- *.
  rewrite run_bind, run_trigger in Heffects |- *. fold created in Heffects |- *.
  destruct created as [[err|id] w1]; cbn [fst snd] in *;
    rewrite run_bind, run_lift in Heffects |- *; cbn [panicOnErr] in *.
  - cbv zeta in *. destruct Heffects as [Hpre Hall].
    split; [reflexivity|]. split; [exact Hpre|]. split; [exact Hall|].
    intros err' [= <-]. split; reflexivity.
  - destruct (run handle _ w1) as [[r t] w2]. cbv zeta in *.
    destruct Heffects as [Hpre Hall].
    split; [reflexivity|]. split; [exact Hpre|]. split; [exact Hall|]. discriminate.
Qed.

(** ** Media types *)

(** X16: [guess_media_type] looks at nothing but the text from the
    last dot of the last element of the path, in lower case: a path
    [stem.ext] is taken for a zip archive or a JSON document when
    [.ext] in lower case is [.zip] or [.json], whatever [stem] is,
    and refused otherwise; a path whose last element has no dot is
    judged by the empty extension. *)
Theorem guess_media_type_extension (stem ext dir name : string) :
  strings_Contains ext "." = false -> strings_Contains ext "/" = false ->
  strings_Contains name "." = false -> strings_Contains name "/" = false ->
  let verdict (path extension : string) :=
    if String.eqb (strings_ToLower extension) ".zip" then Ok "application/zip"
    else if String.eqb (strings_ToLower extension) ".json" then Ok "application/json"
    else Panicked (PanicString ("failed to guess mime for given path: " ++ path)) in
  guess_media_type (stem ++ "." ++ ext) = verdict (stem ++ "." ++ ext) ("." ++ ext) /\
  guess_media_type (dir ++ "/" ++ name) = verdict (dir ++ "/" ++ name) "".
Proof.
  intros Hdot Hsep Hdot' Hsep' verdict. unfold guess_media_type, verdict.
  rewrite (filepath_Ext_suffix _ _ Hdot Hsep).
  rewrite (proj2 (filepath_Ext_none dir _ Hdot' Hsep')). split; reflexivity.
Qed.

(** ** The name of the artifact *)

(** X17: for a slug and a version without slash, the artifact that
    [TukuiMirror.download_addon] puts into the directory [dir] has
    the base name [<slug>--<version>.zip], which is the file name
    that [mirror] records in the metadata document and the name
    under which the artifact is uploaded, and it has the extension
    [.zip], by which its media type is guessed.  This is so where
    [filepath.Join] has nothing to clean, and puts a slash between
    the directory and the file name. *)
Theorem artifact_file_name (addon : Addon) (dir : string) :
  strings_Contains (Slug addon) "/" = false ->
  strings_Contains (Version addon) "/" = false ->
  let addon_filename := fmt_Sprintf "%s--%s.zip" [ArgS (Slug addon); ArgS (Version addon)] in
  let zip_output_path := filepath_Join [dir; addon_filename] in
  zip_output_path = dir ++ "/" ++ addon_filename ->
  filepath_Base zip_output_path = Slug addon ++ "--" ++ Version addon ++ ".zip" /\
  filepath_Ext zip_output_path = ".zip".
Proof.
  intros Hslug Hversion addon_filename zip_output_path ->.
  assert (addon_filename = Slug addon ++ "--" ++ Version addon ++ ".zip") as ->
    by reflexivity.
  split.
  - apply filepath_Base_file.
    + destruct (Slug addon); discriminate.
    + repeat apply strings_Contains_app; try assumption; reflexivity.
  - replace (dir ++ "/" ++ Slug addon ++ "--" ++ Version addon ++ ".zip")
      with ((dir ++ "/" ++ Slug addon ++ "--" ++ Version addon) ++ "." ++ "zip")
      by (now rewrite !string_app_assoc).
    apply filepath_Ext_suffix; reflexivity.
Qed.
End MoreRunFacts.

(** ** Response bodies *)

Section Bodies.
Context {W : Type} (handle : forall X, Event X -> W -> X * W).
Context {lib : GoLib}.

Local Arguments fmt_Sprintf : simpl never.
Local Arguments String.append : simpl never.

Lemma no_http_bind {A B} (p : Prog A) (k : A -> Prog B) :
  no_http p -> (forall a, no_http (k a)) -> no_http (p ≫= k).
Proof.
  intros Hp Hk. induction Hp as [a|v|X e h He _ IH].
  - apply Hk.
  - constructor.
  - apply (no_http_Vis e); [exact He|exact IH].
Qed.

Lemma no_http_trigger {X} (e : Event X) : http_event e = false -> no_http (trigger e).
Proof. intros He. apply (no_http_Vis e); [exact He|constructor]. Qed.

Lemma no_http_lift {A} (r : result A) : no_http (lift r).
Proof. destruct r; constructor. Qed.

Lemma no_http_for_range {A} (l : list A) (body : A -> Prog unit) :
  (forall x, no_http (body x)) -> no_http (for_range l body).
Proof.
  intros Hbody. induction l as [|x l IH]; [constructor|].
  cbn [for_range]. apply no_http_bind; [apply Hbody|intros _; exact IH].
Qed.

(** Goes through a computation built from these. *)
Ltac no_http :=
  repeat first
    [ apply no_http_bind
    | apply no_http_for_range
    | apply no_http_trigger; reflexivity
    | apply no_http_lift
    | apply no_http_Ret
    | intro
    | match goal with
      | |- no_http (match ?x with _ => _ end) => destruct x
      end ].

Lemma no_http_run_cmd (command path : string) : no_http (run_cmd command path).
Proof. unfold run_cmd, stderr. no_http. Qed.

Lemma no_http_run_all_cmd (command_list : list string) (cwd : string) :
  no_http (run_all_cmd command_list cwd).
Proof. unfold run_all_cmd. no_http. Qed.

Lemma no_http_mirror_query (addon : Addon) (script_path : string) :
  no_http (mirror_query addon script_path).
Proof.
  unfold mirror_query, fetch_repo, fetch_addon_version. no_http.
Qed.

Lemma no_http_publish_update (addon : Addon) (addon_output_dir token zip_output_path : string) :
  no_http (publish_update addon addon_output_dir token zip_output_path).
Proof.
  unfold publish_update, write_release_json, tag_addon, create_tag_release, upload_asset,
    stderr.
  no_http.
Qed.

(** A computation that makes no such call leaves a trace without
    response and without closed body. *)
Lemma no_http_quiet {A} (p : Prog A) (w : W) :
  no_http p ->
  let '(_, t, _) := run handle p w in omap closed_of t = [] /\ omap response_of t = [].
Proof.
  intros Hp. revert w. induction Hp as [a|v|X e h He _ IH]; intros w.
  - split; reflexivity.
  - split; reflexivity.
  - cbn [run]. destruct (handle X e w) as [x w1].
    specialize (IH x w1). destruct (run handle (h x) w1) as [[r t] w2].
    destruct IH as [Hclosed Hresponse].
    destruct e; try discriminate; cbn; now rewrite ?Hclosed, ?Hresponse.
Qed.

Lemma closes_all_no_http {A} (p : Prog A) : no_http p -> closes_all handle p.
Proof.
  intros Hp w. pose proof (no_http_quiet p w Hp) as Hquiet.
  destruct (run handle p w) as [[r t] w1]. destruct Hquiet as [Hclosed Hresponse].
  unfold closes_bodies. now rewrite Hclosed, Hresponse.
Qed.

Lemma closes_bodies_app (t1 t2 : list obs) :
  closes_bodies t1 -> closes_bodies t2 -> closes_bodies (t1 ++ t2).
Proof.
  unfold closes_bodies. intros H1 H2. now rewrite !omap_app, map_app, H1, H2.
Qed.

Lemma closes_all_bind {A B} (p : Prog A) (k : A -> Prog B) :
  closes_all handle p -> (forall a, closes_all handle (k a)) ->
  closes_all handle (p ≫= k).
Proof.
  intros Hp Hk w. rewrite run_bind. specialize (Hp w).
  destruct (run handle p w) as [[[a|v] t] w1]; [|exact Hp].
  specialize (Hk a w1). destruct (run handle (k a) w1) as [[r t2] w2].
  now apply closes_bodies_app.
Qed.

Lemma closes_all_for_range {A} (l : list A) (body : A -> Prog unit) :
  (forall x, closes_all handle (body x)) -> closes_all handle (for_range l body).
Proof.
  intros Hbody. induction l as [|x l IH]; [intros w; reflexivity|].
  cbn [for_range]. apply closes_all_bind; [apply Hbody|intros _; exact IH].
Qed.

(** A request whose response body is closed by a deferred call, the
    rest of the function making no request of its own. *)
Lemma closes_all_request {A} (url doing : string) (k : Response -> Prog A) :
  (forall resp, no_http (k resp)) ->
  closes_all handle
    (r ← trigger (HttpGet url);
     resp ← lift (panicOnErr r doing);
     defer (trigger (Close (Body resp))) (k resp)).
Proof.
  intros Hk w. rewrite run_bind, run_trigger.
  destruct (handle _ (HttpGet url) w) as [[err|resp] w1]; cbn [fst snd];
    rewrite run_bind, run_lift; cbn [panicOnErr]; [reflexivity|].
  rewrite run_defer. pose proof (no_http_quiet (k resp) w1 (Hk resp)) as Hquiet.
  destruct (run handle (k resp) w1) as [[r t] w2]. destruct Hquiet as [Hclosed Hresponse].
  rewrite run_trigger. destruct (handle _ (Close (Body resp)) w2) as [[] w3].
  unfold closes_bodies. cbn. rewrite !omap_app, Hclosed, Hresponse. reflexivity.
Qed.

Lemma closes_all_fetch_addon_list : closes_all handle TukuiMirror_fetch_addon_list.
Proof.
  unfold TukuiMirror_fetch_addon_list. apply closes_all_request. intros resp. no_http.
Qed.

Lemma closes_all_download_addon (addon : Addon) (output_path : string) :
  closes_all handle (TukuiMirror_download_addon addon output_path).
Proof.
  unfold TukuiMirror_download_addon. apply closes_all_bind.
  - apply closes_all_no_http. unfold file_exists. no_http.
  - intros [|]; [apply closes_all_no_http; no_http|].
    apply closes_all_bind; [apply closes_all_no_http; unfold stderr; no_http|].
    intros _. apply closes_all_request. intros resp. unfold stderr. no_http.
Qed.

(** [mirror] closes the response bodies when the mirror does. *)
Lemma closes_all_mirror (app : IMirror) (script_path token : string) :
  closes_all handle (fetch_addon_list app) ->
  (forall addon dir, closes_all handle (download_addon app addon dir)) ->
  closes_all handle (mirror app script_path token).
Proof.
  intros Hlist Hdownload. unfold mirror. apply closes_all_bind; [exact Hlist|].
  intros addon_list. apply closes_all_for_range. intros addon.
  unfold mirror_addon. apply closes_all_bind.
  - apply closes_all_no_http, no_http_mirror_query.
  - intros [addon_output_dir current_version].
    destruct (String.eqb _ _); [apply closes_all_no_http; unfold stderr; no_http|].
    apply closes_all_bind; [apply closes_all_no_http; unfold stderr; no_http|].
    intros _. unfold mirror_update. apply closes_all_bind; [apply Hdownload|].
    intros zip_output_path. apply closes_all_no_http, no_http_publish_update.
Qed.

(** X18: the program leaks no response body: in every run of [main],
    however the calls are answered and wherever the run ends, the
    bodies closed are the bodies of the responses that arrived, one
    for one and in the same order. *)
Theorem main_closes_bodies (w : W) :
  let '(_, t, _) := run handle main w in
  omap closed_of t = map Body (omap response_of t).
Proof.
  revert w. change (closes_all handle main). unfold main.
  apply closes_all_bind; [apply closes_all_no_http; no_http|]. intros r.
  apply closes_all_bind; [apply closes_all_no_http; no_http|]. intros script_path.
  apply closes_all_bind; [apply closes_all_no_http; unfold github_token; no_http|].
  intros token. apply closes_all_mirror.
  - apply closes_all_fetch_addon_list.
  - apply closes_all_download_addon.
Qed.
End Bodies.

(** ** The further properties at work in the simulated world *)

Lemma mirror_stops_at_panic_witness :
  (run Demo.handle
     (mirror (Demo.catalog [Demo.elvui; Demo.tukui; Demo.malformed]) "/srv/mirror" "ghp_token")
     Demo.unclonable).1.1 =
  Panicked (PanicString
    "command 'git clone ssh://git@github.com/ogri-la/tukui' failed: fatal: repository not found").
Proof.
  set (app := Demo.catalog [Demo.elvui; Demo.tukui; Demo.malformed]).
  set (before := run Demo.handle
                   (for_range [Demo.elvui] (mirror_addon app "/srv/mirror" "ghp_token"))
                   Demo.unclonable).
  set (failing := run Demo.handle (mirror_addon app "/srv/mirror" "ghp_token" Demo.tukui)
                    before.2).
  assert (before = (Ok tt, before.1.2, before.2)) as Hbefore by (vm_compute; reflexivity).
  assert (failing =
            (Panicked (PanicString
               "command 'git clone ssh://git@github.com/ogri-la/tukui' failed: fatal: repository not found"),
             failing.1.2, failing.2)) as Hfailing by (vm_compute; reflexivity).
  rewrite (mirror_stops_at_panic Demo.handle app "/srv/mirror" "ghp_token"
             [Demo.elvui] Demo.tukui [Demo.malformed] Demo.unclonable
             Demo.unclonable before.2 failing.2 [] before.1.2 failing.1.2 _
             eq_refl Hbefore Hfailing).
  reflexivity.
Defined.

Lemma mirror_without_addons_witness :
  (run Demo.handle (mirror TukuiMirror "/srv/mirror" "ghp_token") (Demo.calm "")).1.1 =
    Panicked (PanicFailedWhile "deserialising response bytes into a list of addon structs"
                (OtherError "unexpected end of JSON input" false)) /\
  (run Demo.handle (mirror (Demo.catalog []) "/srv/mirror" "ghp_token") (Demo.calm "")).1.1
    = Ok tt.
Proof.
  set (failed := run Demo.handle (fetch_addon_list TukuiMirror) (Demo.calm "")).
  set (empty := run Demo.handle (fetch_addon_list (Demo.catalog [])) (Demo.calm "")).
  assert (failed =
            (Panicked (PanicFailedWhile
                         "deserialising response bytes into a list of addon structs"
                         (OtherError "unexpected end of JSON input" false)),
             failed.1.2, failed.2)) as Hfailed by (vm_compute; reflexivity).
  assert (empty = (Ok [], empty.1.2, empty.2)) as Hempty by (vm_compute; reflexivity).
  split.
  - rewrite (proj1 (mirror_without_addons Demo.handle TukuiMirror "/srv/mirror" "ghp_token"
                      (Demo.calm "") failed.2 failed.1.2) _ Hfailed).
    reflexivity.
  - rewrite (proj2 (mirror_without_addons Demo.handle (Demo.catalog []) "/srv/mirror"
                      "ghp_token" (Demo.calm "") empty.2 empty.1.2) Hempty).
    reflexivity.
Defined.

Lemma mirror_update_bad_patch_witness :
  (run Demo.handle
     (mirror_update TukuiMirror Demo.malformed "/srv/mirror/elvui" "ghp_token")
     (Demo.calm "")).1 =
  (Panicked (PanicSliceBounds 2 1),
   [Obs (Stat "/srv/mirror/elvui/elvui--13.33.zip") (Some Demo.no_such_file);
    Obs (Stderr "downloading: https://api.tukui.org/v1/download/elvui") tt;
    Obs (HttpGet "https://api.tukui.org/v1/download/elvui")
      (inr {| StatusCode := 200; Body := 1 |});
    Obs (ReadAll 1) (inr "PK");
    Obs (WriteFile "/srv/mirror/elvui/elvui--13.33.zip" "PK" perm_0644) None;
    Obs (Stderr "wrote: /srv/mirror/elvui/elvui--13.33.zip") tt;
    Obs (Close 1) tt]).
Proof.
  set (acquired := run Demo.handle
                     (download_addon TukuiMirror Demo.malformed "/srv/mirror/elvui")
                     (Demo.calm "")).
  assert (acquired = (Ok "/srv/mirror/elvui/elvui--13.33.zip", acquired.1.2, acquired.2))
    as Hacquired by (vm_compute; reflexivity).
  assert (gen_release_json Demo.malformed "/srv/mirror/elvui"
            (filepath_Base "/srv/mirror/elvui/elvui--13.33.zip")
          = Panicked (PanicSliceBounds 2 1)) as Hrefused by (vm_compute; reflexivity).
  rewrite (mirror_update_bad_patch Demo.handle TukuiMirror Demo.malformed
             "/srv/mirror/elvui" "ghp_token" _ (Demo.calm "") _ _ _ Hacquired Hrefused).
  reflexivity.
Defined.

Lemma publish_update_document_witness :
  exists doc,
    gen_release_json Demo.elvui "/srv/mirror/elvui" "elvui--13.33.zip" = Ok doc /\
    hd_error
      (run Demo.handle
         (publish_update Demo.elvui "/srv/mirror/elvui" "ghp_token"
            "/srv/mirror/elvui/elvui--13.33.zip") (Demo.calm "")).1.2 =
      Some (Obs (WriteFile "/srv/mirror/elvui/release.json" doc perm_0644) None).
Proof.
  set (published := run Demo.handle
                      (publish_update Demo.elvui "/srv/mirror/elvui" "ghp_token"
                         "/srv/mirror/elvui/elvui--13.33.zip") (Demo.calm "")).
  assert (published = (Ok tt, published.1.2, published.2)) as Hpublished
    by (vm_compute; reflexivity).
  destruct (publish_update_document Demo.handle Demo.elvui "/srv/mirror/elvui" "ghp_token"
              "/srv/mirror/elvui/elvui--13.33.zip" (Demo.calm "") _ _ Hpublished)
    as [doc [Hdoc [Hwritten _]]].
  exists doc. split; [exact Hdoc|exact Hwritten].
Defined.

Lemma guess_media_type_extension_witness :
  guess_media_type "mirror.d/elvui/release.JSON" = Ok "application/json" /\
  guess_media_type "mirror.d/README" =
    Panicked (PanicString "failed to guess mime for given path: mirror.d/README").
Proof.
  exact (guess_media_type_extension "mirror.d/elvui/release" "JSON" "mirror.d" "README"
           eq_refl eq_refl eq_refl eq_refl).
Defined.

Lemma artifact_file_name_witness :
  filepath_Base
    (filepath_Join [ "/srv/mirror/elvui";
                     fmt_Sprintf "%s--%s.zip" [ArgS (Slug Demo.elvui); ArgS (Version Demo.elvui)] ])
    = "elvui--13.33.zip".
Proof.
  exact (proj1 (artifact_file_name Demo.elvui "/srv/mirror/elvui" eq_refl eq_refl eq_refl)).
Defined.
